(** * crio-lxc: lifecycle coordinator, sync barrier and configurer

    A shallow embedding of [cmd/create.go], [cmd/state.go] and the [start]
    command.  Every command is a computation over an explicit [World]
    (file system, engine records, process umask, what was printed), and may
    end by returning, by returning an error, by exiting the process, by a
    run-time panic, or by blocking for ever in a system call. *)

From Stdlib Require Import ZArith NArith Ascii String List Lia.
From stdpp Require Import base tactics option list strings gmap pretty sorting.

Local Open Scope string_scope.
Local Open Scope list_scope.

(** ** Go strings *)

Module GoStrings.

(** [strings.Join(elems, sep)]. *)
Fixpoint Join (elems : list string) (sep : string) : string :=
  match elems with
  | [] => ""
  | [e] => e
  | e :: rest => e +:+ sep +:+ Join rest sep
  end.

(** [strings.Split(s, sep)] for a separator of one byte. *)
Fixpoint Split (s : string) (sep : ascii) : list string :=
  match s with
  | EmptyString => [""]
  | String c r =>
      if Ascii.eqb c sep then "" :: Split r sep
      else match Split r sep with
           | [] => [String c ""]
           | h :: t => String c h :: t
           end
  end.

(** [strings.IndexByte(s, c) >= 0]. *)
Fixpoint contains (c : ascii) (s : string) : bool :=
  match s with
  | EmptyString => false
  | String d r => Ascii.eqb d c || contains c r
  end.

(** The part of [s] before the first [c], and the part after it. *)
Fixpoint cut (c : ascii) (s : string) : string * option string :=
  match s with
  | EmptyString => ("", None)
  | String d r =>
      if Ascii.eqb d c then ("", Some r)
      else let '(a, b) := cut c r in (String d a, b)
  end.

Definition slash : ascii := "/"%char.
Definition space : ascii := " "%char.
Definition comma : ascii := ","%char.
Definition newline : ascii := "010"%char.
Definition percent : ascii := "%"%char.
Definition dquote : ascii := "034"%char.
(** [s] between double quotes. *)
Definition quoted (s : string) : string := String dquote (s +:+ String dquote "").
Definition nl : string := String newline "".

End GoStrings.

(** ** [path/filepath] on Unix *)

Module filepath.
Import GoStrings.

(** One step of [Clean] on the path elements seen so far ([acc], innermost
    element first): [.] and empty elements vanish, [..] removes the element
    before it, stays when there is none and the path is relative, and
    vanishes at the root. *)
Definition cleanStep (rooted : bool) (acc : list string) (e : string) : list string :=
  if decide (e = "") then acc
  else if decide (e = ".") then acc
  else if decide (e = "..") then
    match acc with
    | [] => if rooted then [] else [".."]
    | top :: below => if decide (top = "..") then ".." :: acc else below
    end
  else e :: acc.

Definition Clean (path : string) : string :=
  match path with
  | EmptyString => "."
  | String c _ =>
      let rooted := Ascii.eqb c slash in
      let elems := rev (fold_left (cleanStep rooted) (Split path slash) []) in
      match elems, rooted with
      | [], true => "/"
      | [], false => "."
      | _, true => "/" +:+ Join elems "/"
      | _, false => Join elems "/"
      end
  end.

(** [filepath.Join]: leading empty elements are skipped, the rest is joined
    with slashes and cleaned; no non-empty element gives the empty string. *)
Fixpoint Join (elem : list string) : string :=
  match elem with
  | [] => ""
  | e :: rest => if decide (e = "") then Join rest else Clean (GoStrings.Join elem "/")
  end.

(** [path[: i+1]] for the last separator at [i]; empty without a separator. *)
Fixpoint upToLastSlash (path : string) : string :=
  match path with
  | EmptyString => ""
  | String c r =>
      if contains slash r then String c (upToLastSlash r)
      else if Ascii.eqb c slash then "/" else ""
  end.

Definition Dir (path : string) : string := Clean (upToLastSlash path).

(** The proper prefixes of a cleaned path that name its ancestors, outermost
    first, followed by the path itself: what [os.MkdirAll] visits. *)
Definition prefixes (path : string) : list string :=
  match path with
  | EmptyString => []
  | String c _ =>
      let rooted := Ascii.eqb c slash in
      let elems := filter (λ e, e ≠ "") (Split path slash) in
      let start := if rooted then "" else "." in
      tail (rev (fold_left
              (λ acc e, match acc with
                        | [] => [e]
                        | p :: _ => (if decide (p = ".") then e else p +:+ "/" +:+ e) :: acc
                        end)
              elems [start]))
  end.

End filepath.

Arguments filepath.Clean : simpl never.
Arguments filepath.Join : simpl never.
Arguments filepath.Dir : simpl never.
Arguments filepath.prefixes : simpl never.


(** ** Errors

    The commands build their errors with [fmt.Errorf] and [errors.Wrap]; an
    error here is its message together with the class of the error taxonomy
    that the place raising it belongs to. *)

Inductive ErrKind :=
| NotFound | AlreadyExists | AlreadyRunning | BarrierMissing
| StillRunning | EngineFailure | IOFailure.

#[global] Instance ErrKind_eq_dec : EqDecision ErrKind.
Proof. solve_decision. Defined.

Record Error := mkError { err_kind : ErrKind; err_msg : string }.

#[global] Instance Error_eq_dec : EqDecision Error.
Proof. solve_decision. Defined.

Module errors.
(** [errors.Wrap(err, message)]: the message is put in front, the cause kept. *)
Definition Wrap (err : Error) (message : string) : Error :=
  mkError (err_kind err) (message +:+ ": " +:+ err_msg err).
End errors.

(** ** The world outside the process *)

(** A file system node.  A fifo carries the writers that are blocked opening
    it, each with the name of the container whose hook it is and the bytes it
    writes before it closes. *)
Inductive Node :=
| NDir (perm : N)
| NFile (perm : N) (content : string)
| NFifo (perm : N) (writers : list (string * string)).

Definition isFifo (n : option Node) : bool :=
  match n with Some (NFifo _ _) => true | _ => false end.

(** What the engine knows of a container's init. *)
Inductive InitStatus := BlockedAtBarrier | RunningUser | Stopped.

#[global] Instance InitStatus_eq_dec : EqDecision InitStatus.
Proof. solve_decision. Defined.

(** The engine's record of a container: its configuration lines in order and
    the status of its init. *)
Record ContainerRecord := mkRecord {
  rec_config : list (string * string);
  rec_status : InitStatus }.

(** An operand of a logging call. *)
Inductive Value := VString (s : string) | VStrings (l : list string).

(** The operations on the world; the trace lists the ones attempted, and the
    world's fault oracle says which ones the environment makes fail. *)
Inductive Op :=
| OpStat (path : string)
| OpContainerExists (name : string)
| OpNewContainer (name lxcpath : string)
| OpRelease (name : string)
| OpReadBundleSpec (path : string)
| OpMkdirAll (path : string) (perm : N)
| OpWriteFile (path : string) (perm : N)
| OpSetConfigItem (name key value : string)
| OpSaveConfigFile (name path : string)
| OpUmask (mask : N)
| OpMkfifo (path : string) (mode : N)
| OpReadlink (path : string)
| OpRun (argv : list string) (inheritStdio : bool)
| OpOpenFile (path : string) (flag : N) (perm : N)
| OpReadAll (path : string).

#[global] Instance Op_eq_dec : EqDecision Op.
Proof. solve_decision. Defined.

Record World := mkWorld {
  w_fs : gmap string Node;
  w_engine : gmap string ContainerRecord;
  w_umask : N;
  w_self_exe : string;
  w_fault : Op → bool;
  w_trace : list Op;
  w_log : list (string * list Value);
  w_stdout : string;
  w_stderr : string }.

Definition set_fs (f : gmap string Node → gmap string Node) (w : World) : World :=
  mkWorld (f (w_fs w)) (w_engine w) (w_umask w) (w_self_exe w) (w_fault w)
          (w_trace w) (w_log w) (w_stdout w) (w_stderr w).
Definition set_engine (f : gmap string ContainerRecord → gmap string ContainerRecord)
    (w : World) : World :=
  mkWorld (w_fs w) (f (w_engine w)) (w_umask w) (w_self_exe w) (w_fault w)
          (w_trace w) (w_log w) (w_stdout w) (w_stderr w).
Definition set_umask (m : N) (w : World) : World :=
  mkWorld (w_fs w) (w_engine w) m (w_self_exe w) (w_fault w)
          (w_trace w) (w_log w) (w_stdout w) (w_stderr w).
Definition add_traces (ops : list Op) (w : World) : World :=
  mkWorld (w_fs w) (w_engine w) (w_umask w) (w_self_exe w) (w_fault w)
          (w_trace w ++ ops) (w_log w) (w_stdout w) (w_stderr w).
Definition add_trace (o : Op) : World → World := add_traces [o].
Definition add_log (line : string * list Value) (w : World) : World :=
  mkWorld (w_fs w) (w_engine w) (w_umask w) (w_self_exe w) (w_fault w)
          (w_trace w) (w_log w ++ [line]) (w_stdout w) (w_stderr w).
Definition add_stdout (s : string) (w : World) : World :=
  mkWorld (w_fs w) (w_engine w) (w_umask w) (w_self_exe w) (w_fault w)
          (w_trace w) (w_log w) (w_stdout w +:+ s) (w_stderr w).
Definition add_stderr (s : string) (w : World) : World :=
  mkWorld (w_fs w) (w_engine w) (w_umask w) (w_self_exe w) (w_fault w)
          (w_trace w) (w_log w) (w_stdout w) (w_stderr w +:+ s).

(** ** Outcomes and the command monad *)

Inductive Outcome (A : Type) :=
| Ret (a : A)               (* the function returns, with a nil error *)
| Fail (e : Error)          (* the function returns a non-nil error *)
| Exited (code : Z)         (* the process exits *)
| Panicked (msg : string)   (* run-time panic *)
| Blocked.                  (* blocked for ever in a system call *)
Arguments Ret {A} a.
Arguments Fail {A} e.
Arguments Exited {A} code.
Arguments Panicked {A} msg.
Arguments Blocked {A}.

Definition M (A : Type) : Type := World → Outcome A * World.

Definition ret {A} (a : A) : M A := λ w, (Ret a, w).
Definition fail {A} (e : Error) : M A := λ w, (Fail e, w).
Definition bind {A B} (m : M A) (k : A → M B) : M B :=
  λ w, match m w with
       | (Ret a, w') => k a w'
       | (Fail e, w') => (Fail e, w')
       | (Exited c, w') => (Exited c, w')
       | (Panicked s, w') => (Panicked s, w')
       | (Blocked, w') => (Blocked, w')
       end.

Notation "'let*' x ':=' m 'in' k" := (bind m (λ x, k))
  (at level 10, x name, m at level 100, k at level 200, only parsing).

(** [x, err := f(); if err != nil { return errors.Wrap(err, message) }]. *)
Definition wrapErr {A} (m : M A) (message : string) : M A :=
  λ w, match m w with
       | (Fail e, w') => (Fail (errors.Wrap e message), w')
       | r => r
       end.

(** [defer cleanup()]: the deferred call runs when the function returns or
    panics, not when the process exits or never leaves a system call. *)
Definition defer {A} (cleanup : World → World) (body : M A) : M A :=
  λ w, match body w with
       | (Ret a, w') => (Ret a, cleanup w')
       | (Fail e, w') => (Fail e, cleanup w')
       | (Panicked s, w') => (Panicked s, cleanup w')
       | r => r
       end.

Definition effect (f : World → World) : M unit := λ w, (Ret tt, f w).
Definition get {A} (f : World → A) : M A := λ w, (Ret (f w), w).

(** An operation of the world: it is recorded, fails when the environment
    says so, and otherwise does [run]. *)
Definition attempt {A} (o : Op) (kind : ErrKind) (what : string) (run : M A) : M A :=
  λ w, let w1 := add_trace o w in
       if w_fault w o then (Fail (mkError kind what), w1) else run w1.

(** [log.Infof(format, operands...)]: the call is recorded as it is made. *)
Definition Infof (format : string) (operands : list Value) : M unit :=
  effect (add_log (format, operands)).

(** ** The engine's side of the barrier *)

Module Engine.

(** Modelled from the spec: the engine's side of the barrier, which is not in
    this repository.  Once the token of a container's hook has been read the
    hook exits, the engine lets init execute the user program, and the
    running predicate of that container turns true. *)
Definition releaseInit (engine : gmap string ContainerRecord) (name : string)
  : gmap string ContainerRecord :=
  match engine !! name with
  | Some r =>
      if decide (rec_status r = BlockedAtBarrier)
      then <[name := mkRecord (rec_config r) RunningUser]> engine
      else engine
  | None => engine
  end.

End Engine.

(** ** The operating system: [os], [io/ioutil], [unix] *)

Module os.

Definition O_RDONLY : N := 0.

(** The node a path names; the root and the working directory are there. *)
Definition lookupNode (fs : gmap string Node) (path : string) : option Node :=
  if decide (path = "/") then Some (NDir 493)
  else if decide (path = ".") then Some (NDir 493)
  else fs !! path.

Definition isDir (fs : gmap string Node) (path : string) : bool :=
  match lookupNode fs path with Some (NDir _) => true | _ => false end.

(** Permission bits of a node created with [mode] under the umask. *)
Definition masked (mode umask : N) : N := N.ldiff mode umask.

(** The directories [MkdirAll] makes, one path prefix at a time; [None] when
    a prefix is there and is no directory. *)
Fixpoint mkdirs (paths : list string) (perm : N) (fs : gmap string Node)
  : option (gmap string Node) :=
  match paths with
  | [] => Some fs
  | p :: rest =>
      match lookupNode fs p with
      | Some (NDir _) => mkdirs rest perm fs
      | Some _ => None
      | None => mkdirs rest perm (<[p := NDir perm]> fs)
      end
  end.

(** [os.MkdirAll(path, perm)]. *)
Definition MkdirAll (path : string) (perm : N) : M unit :=
  attempt (OpMkdirAll path perm) IOFailure ("mkdir " +:+ path)
    (λ w, match mkdirs (filepath.prefixes path) (masked perm (w_umask w)) (w_fs w) with
          | Some fs' => (Ret tt, set_fs (λ _, fs') w)
          | None => (Fail (mkError IOFailure ("mkdir " +:+ path +:+ ": not a directory")), w)
          end).

(** Create or truncate a regular file and write [data] to it, as
    [open(O_WRONLY|O_CREATE|O_TRUNC, perm)], write and close do. *)
Definition writeWhole (what path data : string) (perm : N) : M unit :=
  λ w, if negb (isDir (w_fs w) (filepath.Dir path)) then
         (Fail (mkError IOFailure (what +:+ path +:+ ": no such file or directory")), w)
       else match lookupNode (w_fs w) path with
            | Some (NDir _) =>
                (Fail (mkError IOFailure (what +:+ path +:+ ": is a directory")), w)
            | Some (NFifo _ _) => (Blocked, w)
            | Some (NFile old _) => (Ret tt, set_fs (<[path := NFile old data]>) w)
            | None =>
                (Ret tt, set_fs (<[path := NFile (masked perm (w_umask w)) data]>) w)
            end.

(** [os.Readlink(name)], for the link to the running executable. *)
Definition Readlink (name : string) : M string :=
  attempt (OpReadlink name) IOFailure ("readlink " +:+ name) (get w_self_exe).

(** [os.OpenFile(name, flag, perm)] for the read-only opens of the commands:
    the result stands for the open file.  Opening a fifo for reading blocks
    until a writer has it open. *)
Definition OpenFile (name : string) (flag perm : N) : M string :=
  attempt (OpOpenFile name flag perm) IOFailure ("open " +:+ name)
    (λ w, match lookupNode (w_fs w) name with
          | None =>
              (Fail (mkError IOFailure ("open " +:+ name +:+ ": no such file or directory")), w)
          | Some (NFifo _ []) => (Blocked, w)
          | Some _ => (Ret name, w)
          end).

End os.

Module ioutil.

(** [ioutil.WriteFile(filename, data, perm)]. *)
Definition WriteFile (filename data : string) (perm : N) : M unit :=
  attempt (OpWriteFile filename perm) IOFailure ("open " +:+ filename)
    (os.writeWhole "open " filename data perm).

(** [ioutil.ReadAll(f)]: everything up to end-of-stream.  On a fifo that is
    what the writers write before they close; they are gone afterwards. *)
Definition ReadAll (f : string) : M string :=
  attempt (OpReadAll f) IOFailure ("read " +:+ f)
    (λ w, match os.lookupNode (w_fs w) f with
          | Some (NFifo perm writers) =>
              (Ret (String.concat "" (map snd writers)),
               set_engine (λ e, fold_left Engine.releaseInit (map fst writers) e)
                 (set_fs (<[f := NFifo perm []]>) w))
          | Some (NFile _ content) => (Ret content, w)
          | Some (NDir _) =>
              (Fail (mkError IOFailure ("read " +:+ f +:+ ": is a directory")), w)
          | None => (Fail (mkError IOFailure ("read " +:+ f +:+ ": bad file descriptor")), w)
          end).

End ioutil.

Module unix.

(** [unix.Umask(mask)]: sets the mask of the process, returns the old one. *)
Definition Umask (mask : N) : M N :=
  λ w, (Ret (w_umask w), set_umask mask (add_trace (OpUmask mask) w)).

(** [unix.Mkfifo(path, mode)]: fails when the path is there already. *)
Definition Mkfifo (path : string) (mode : N) : M unit :=
  attempt (OpMkfifo path mode) IOFailure ("mkfifo " +:+ path)
    (λ w, match os.lookupNode (w_fs w) path with
          | Some _ => (Fail (mkError IOFailure ("mkfifo " +:+ path +:+ ": file exists")), w)
          | None =>
              if os.isDir (w_fs w) (filepath.Dir path) then
                (Ret tt, set_fs (<[path := NFifo (os.masked mode (w_umask w)) []]>) w)
              else
                (Fail (mkError IOFailure
                         ("mkfifo " +:+ path +:+ ": no such file or directory")), w)
          end).

End unix.

(** ** [runtime-spec/specs-go]: the parts of the bundle spec the commands use *)

Module specs.

Record Root := mkRoot { Path : string }.

Record Process := mkProcess {
  Terminal : bool;
  Args : list string;
  Env : list string;
  Cwd : string }.

Record Mount := mkMount {
  Destination : string;
  Type_ : string;
  Source : string;
  Options : list string }.

Record Spec := mkSpec {
  Process_ : Process;
  Root_ : Root;
  Hostname : string;
  Mounts : list Mount }.

(** The state document of [doState]; [Annotations] is a Go map. *)
Record State := mkState {
  Version : string;
  ID : string;
  Status : string;
  Pid : Z;
  Bundle : string;
  Annotations : gmap string string }.

End specs.

(** ** [urfave/cli]: the context of a command *)

Module cli.

Record Context := mkContext {
  args : list string;
  bundle : string;      (* --bundle, "." when not given *)
  debug : bool }.       (* what ctx.Bool("debug") gives *)

(** [ctx.Args().Get(n)]: the empty string when there is no such argument. *)
Definition Args_Get (ctx : Context) (n : nat) : string := default "" (args ctx !! n).

(** [cli.ShowCommandHelpAndExit(ctx, command, code)]; the help text is the
    command line library's and is left out. *)
Definition ShowCommandHelpAndExit {A} (command : string) (code : Z) : M A :=
  λ w, (Exited code, w).

End cli.

(** ** [go-lxc]: the handle of a container *)

Module lxc.
Import GoStrings.

(** The in-memory container a command works on: the engine's configuration
    surface as the lines set so far, in order. *)
Record Container := mkContainer {
  Name : string;
  configPath : string;
  items : list (string * string);
  verbosity : bool }.

Definition Verbose : bool := true.

(** [lxc.NewContainer(name, lxcpath)]: a handle, with the configuration of
    the engine's record when there is one and an empty container otherwise
    ([doCreate] takes its handle after it has seen that there is no record). *)
Definition NewContainer (name lxcpath : string) : M Container :=
  attempt (OpNewContainer name lxcpath) EngineFailure "lxc_container_new failed"
    (get (λ w, mkContainer name lxcpath
                 (match w_engine w !! name with
                  | Some r => rec_config r
                  | None => []
                  end) false)).

(** [c.Release()]. *)
Definition Release (c : Container) : World → World := add_trace (OpRelease (Name c)).

(** [c.SetVerbosity(v)]. *)
Definition SetVerbosity (c : Container) (v : bool) : Container :=
  mkContainer (Name c) (configPath c) (items c) v.

(** [c.SetConfigItem(key, value)]: the engine takes the line or rejects it. *)
Definition SetConfigItem (c : Container) (key value : string) : M Container :=
  attempt (OpSetConfigItem (Name c) key value) EngineFailure
    ("setting config item for the container failed")
    (ret (mkContainer (Name c) (configPath c) (items c ++ [(key, value)]) (verbosity c))).

(** [c.ConfigItem(key)]: the values set for [key], in order. *)
Definition ConfigItem (c : Container) (key : string) : list string :=
  map snd (filter (λ kv, fst kv = key) (items c)).

(** [c.Running()]. *)
Definition Running (c : Container) : M bool :=
  get (λ w, match w_engine w !! Name c with
            | Some r => bool_decide (rec_status r = RunningUser)
            | None => false
            end).

(** The text of a configuration file: a line [key = value] per item. *)
Definition renderLine (kv : string * string) : string :=
  fst kv +:+ " = " +:+ snd kv +:+ nl.

Definition renderConfig (its : list (string * string)) : string :=
  String.concat "" (map renderLine its).

(** Reading a line back: the key ends at the first space. *)
Definition parseLine (line : string) : option (string * string) :=
  match cut space line with
  | (k, Some (String e (String sp v))) =>
      if Ascii.eqb e "="%char && Ascii.eqb sp space then Some (k, v) else None
  | _ => None
  end.

Definition parseConfig (text : string) : list (string * string) :=
  omap parseLine (Split text newline).

(** [c.SaveConfigFile(path)]. *)
Definition SaveConfigFile (c : Container) (path : string) : M unit :=
  attempt (OpSaveConfigFile (Name c) path) EngineFailure
    ("saving config file for the container failed")
    (os.writeWhole "open " path (renderConfig (items c)) 438).

End lxc.

(** ** What the three command files do not define

    Constants and helpers of the package that the commands use and that are
    defined in other files of the package, and the default path of the
    engine's library. *)

Class Externals := {
  LXC_PATH : string;
  CURRENT_OCI_VERSION : string;
  (** [lxc.DefaultConfigPath()] *)
  DefaultConfigPath : string;
  (** [readBundleSpec(specFilePath)], the bundle spec reader *)
  readBundleSpec : gmap string Node → string → Error + specs.Spec;
  (** [configureLogging(ctx, c)]: works on the handle, may return an error *)
  configureLogging : cli.Context → lxc.Container → option Error * lxc.Container;
  (** a handle keeps the name it was made with *)
  configureLogging_Name : ∀ ctx c, lxc.Name (snd (configureLogging ctx c)) = lxc.Name c }.

(** ** [unicode/utf8], [encoding/json] and [fmt], as far as [doState] uses them *)

Module utf8.

Definition byte (c : ascii) : N := N_of_ascii c.
Definition between (lo hi : N) (c : ascii) : bool := (lo <=? byte c)%N && (byte c <=? hi)%N.
Definition cont : ascii → bool := between 128 191.

(** The number of bytes of the encoded rune [s] starts with, or [None] when
    [s] starts with no valid encoding ([RuneError] of width 1). *)
Definition runeLen (s : string) : option nat :=
  match s with
  | EmptyString => None
  | String b0 r =>
      if (byte b0 <? 128)%N then Some 1
      else match r with
      | String b1 r1 =>
          if between 194 223 b0 then (if cont b1 then Some 2 else None)
          else match r1 with
          | String b2 r2 =>
              let second3 :=
                if (byte b0 =? 224)%N then between 160 191 b1
                else if (byte b0 =? 237)%N then between 128 159 b1
                else between 225 239 b0 && cont b1 in
              if between 224 239 b0 then (if second3 && cont b2 then Some 3 else None)
              else match r2 with
              | String b3 _ =>
                  let second4 :=
                    if (byte b0 =? 240)%N then between 144 191 b1
                    else if (byte b0 =? 244)%N then between 128 143 b1
                    else between 241 243 b0 && cont b1 in
                  if between 240 244 b0 && second4 && cont b2 && cont b3
                  then Some 4 else None
              | EmptyString => None
              end
          | EmptyString => None
          end
      | EmptyString => None
      end
  end.

(** The encoding of [RuneError], U+FFFD. *)
Definition RuneError : string :=
  String (ascii_of_N 239) (String (ascii_of_N 191) (String (ascii_of_N 189) "")).

Fixpoint take (n : nat) (s : string) : string :=
  match n, s with
  | S n, String c r => String c (take n r)
  | _, _ => ""
  end.

Fixpoint drop (n : nat) (s : string) : string :=
  match n, s with
  | S n, String _ r => drop n r
  | _, _ => s
  end.

End utf8.

Module json.
Import GoStrings.

Definition hex (n : N) : ascii :=
  if (n <? 10)%N then ascii_of_N (48 + n) else ascii_of_N (87 + n).

(** The bytes below 0x80 that a string value holds as they are. *)
Definition htmlSafe (c : ascii) : bool :=
  let b := utf8.byte c in
  (32 <=? b)%N && negb (Ascii.eqb c dquote) && negb (Ascii.eqb c "\"%char)
  && negb (Ascii.eqb c "<"%char) && negb (Ascii.eqb c ">"%char)
  && negb (Ascii.eqb c "&"%char).

Definition escapeByte (c : ascii) : string :=
  if htmlSafe c then String c ""
  else if Ascii.eqb c dquote || Ascii.eqb c "\"%char then String "\"%char (String c "")
  else if Ascii.eqb c newline then "\n"
  else if Ascii.eqb c (ascii_of_N 13) then "\r"
  else if Ascii.eqb c (ascii_of_N 9) then "\t"
  else "\u00" +:+ String (hex (N.shiftr (utf8.byte c) 4))
                    (String (hex (N.land (utf8.byte c) 15)) "").

(** The body of a string value; [fuel] bounds the bytes still to encode. *)
Fixpoint escape (fuel : nat) (s : string) : string :=
  match fuel, s with
  | S fuel, String c r =>
      if (utf8.byte c <? 128)%N then escapeByte c +:+ escape fuel r
      else match utf8.runeLen s with
           | None => "\ufffd" +:+ escape fuel r
           | Some n =>
               let rune := utf8.take n s in
               let out :=
                 if decide (rune = String (ascii_of_N 226) (String (ascii_of_N 128)
                                     (String (ascii_of_N 168) ""))) then "\u2028"
                 else if decide (rune = String (ascii_of_N 226) (String (ascii_of_N 128)
                                     (String (ascii_of_N 169) ""))) then "\u2029"
                 else rune in
               out +:+ escape fuel (utf8.drop n s)
           end
  | _, _ => ""
  end.

(** A Go string as a JSON string value. *)
Definition encodeString (s : string) : string := quoted (escape (String.length s) s).

#[local] Instance leb_dec (a b : string) : Decision (String.leb a b = true).
Proof. solve_decision. Defined.

(** A [map[string]string] as a JSON object, keys in sorted order. *)
Definition encodeMap (m : gmap string string) : string :=
  let entries := merge_sort (λ a b, String.leb (fst a) (fst b) = true) (map_to_list m) in
  "{" +:+ GoStrings.Join
            (map (λ kv, encodeString (fst kv) +:+ ":" +:+ encodeString (snd kv)) entries) ","
  +:+ "}".

Definition member (key value : string) : string := quoted key +:+ ":" +:+ value.

(** Modelled from the spec: the names of the members of the state document;
    the declaration of [specs.State] with its field tags is in the vendored
    runtime-spec package.  [json.Marshal(s)] writes the fields in the order of the
    declaration. *)
Definition Marshal (s : specs.State) : string :=
  "{" +:+ GoStrings.Join
            [ member "version" (encodeString (specs.Version s));
              member "id" (encodeString (specs.ID s));
              member "status" (encodeString (specs.Status s));
              member "pid" (pretty (specs.Pid s));
              member "bundle" (encodeString (specs.Bundle s));
              member "annotations" (encodeMap (specs.Annotations s)) ] ","
  +:+ "}".

End json.

Module fmt.
Import GoStrings.

Definition isDigit (c : ascii) : bool := utf8.between 48 57 c.
Definition isFlag (c : ascii) : bool :=
  Ascii.eqb c "#"%char || Ascii.eqb c "0"%char || Ascii.eqb c "+"%char
  || Ascii.eqb c "-"%char || Ascii.eqb c space.

Fixpoint skipFlags (s : string) : string :=
  match s with
  | String c r => if isFlag c then skipFlags r else s
  | EmptyString => s
  end.

(** [parsenum]: whether there is a number at the start of [s], and what
    follows it; a number that grows past a million ends the scan at [stop],
    what is left at the end of the slice scanned. *)
Fixpoint parsenum (s : string) (stop : string) (num : N) (isnum : bool) : bool * string :=
  match s with
  | String c r =>
      if isDigit c then
        if (1000000 <? num)%N then (false, stop)
        else parsenum r stop (num * 10 + (utf8.byte c - 48))%N true
      else (isnum, s)
  | EmptyString => (isnum, s)
  end.

(** [parseArgNumber] on a format that starts with a bracket: how many bytes
    the index takes and whether it is one. *)
Definition parseArgNumber (s : string) : nat * bool :=
  if (String.length s <? 3)%nat then (1%nat, false)
  else match cut "]"%char (utf8.drop 1 s) with
       | (inner, Some _) =>
           let wid := S (S (String.length inner)) in
           match inner with
           | EmptyString => (wid, false)
           | _ => let '(ok, rest) := parsenum inner "" 0 false in
                  (wid, ok && bool_decide (rest = ""))
           end
       | (_, None) => (1%nat, false)
       end.

(** [argNumber] when there are no operands: an index is never a good one.
    Gives what follows, whether an index was found, and whether the
    directive is still good. *)
Definition argNumber (s : string) (good : bool) : string * bool * bool :=
  match s with
  | String c _ =>
      if Ascii.eqb c "["%char then
        let '(wid, ok) := parseArgNumber s in (utf8.drop wid s, ok, false)
      else (s, false, good)
  | EmptyString => (s, false, good)
  end.

(** One directive of [doPrintf] without operands, for the format after the
    percent sign: what it prints and what follows it. *)
Definition directive (s : string) : string * string :=
  let s := skipFlags s in
  let '(s, afterIndex, good) := argNumber s true in
  (* width *)
  let '(out, s, afterIndex, good) :=
    match s with
    | String "*"%char r => ("%!(BADWIDTH)", r, false, good)
    | _ => let '(isnum, r) := parsenum s "" 0 false in
           ("", r, afterIndex, if afterIndex && isnum then false else good)
    end in
  (* precision *)
  let '(out, s, afterIndex, good) :=
    match s with
    | String "."%char (String c r' as r) =>
        let good := if afterIndex then false else good in
        let '(r, afterIndex, good) := argNumber r good in
        match r with
        | String "*"%char r => (out +:+ "%!(BADPREC)", r, false, good)
        | _ => let '(_, r) := parsenum r "" 0 false in (out, r, afterIndex, good)
        end
    | _ => (out, s, afterIndex, good)
    end in
  let '(s, good) :=
    if afterIndex then (s, good)
    else let '(s, _, good) := argNumber s good in (s, good) in
  match s with
  | EmptyString => (out +:+ "%!(NOVERB)", "")
  | String c r =>
      let '(verb, rest) :=
        if (utf8.byte c <? 128)%N then (String c "", r)
        else match utf8.runeLen s with
             | Some n => (utf8.take n s, utf8.drop n s)
             | None => (utf8.RuneError, r)
             end in
      if Ascii.eqb c percent then (out +:+ "%", rest)
      else if negb good then (out +:+ "%!" +:+ verb +:+ "(BADINDEX)", rest)
      else (out +:+ "%!" +:+ verb +:+ "(MISSING)", rest)
  end.

(** [doPrintf(format, nil)]: the bytes up to a percent sign are copied, a
    directive is printed as above; [fuel] bounds the bytes still to read. *)
Fixpoint doPrintf (fuel : nat) (format : string) : string :=
  match fuel, format with
  | S fuel, String c r =>
      if Ascii.eqb c percent then
        let '(out, rest) := directive r in out +:+ doPrintf fuel rest
      else String c (doPrintf fuel r)
  | _, _ => ""
  end.

(** [fmt.Fprintf(os.Stdout, format)], a call without operands. *)
Definition Fprintf_Stdout (format : string) : M unit :=
  effect (add_stdout (doPrintf (String.length format) format)).

End fmt.

Arguments json.Marshal : simpl never.
Arguments json.encodeString : simpl never.
Arguments fmt.doPrintf : simpl never.

(** ** The commands *)

Section Commands.
Context `{Externals}.
Import GoStrings.

(** The script of the start hook, as [create.go] has it. *)
Definition syncFifoWaitHook : string :=
  nl +:+ "#!/bin/bash" +:+ nl
  +:+ "log=/var/lib/lxc/$LXC_NAME/syncfifo-hook-log-$(date --iso-8601=s)" +:+ nl
  +:+ nl
  +:+ "fifo=/var/lib/lxc/$LXC_NAME/syncfifo" +:+ nl
  +:+ "[ -p $fifo ] || {" +:+ nl
  +:+ "    echo " +:+ quoted "error: $fifo not found or not a fifo" +:+ nl
  +:+ "    exit 1" +:+ nl
  +:+ "}" +:+ nl
  +:+ "echo " +:+ quoted "started, waiting on $fifo" +:+ " >$log" +:+ nl
  +:+ "echo " +:+ quoted "ready" +:+ ">$fifo" +:+ nl
  +:+ "echo " +:+ quoted "done, $fifo was read from" +:+ ">>$log" +:+ nl.

(** The fifo the hook script opens for the container [name], and what
    [echo] writes to it. *)
Definition hookFifo (name : string) : string := "/var/lib/lxc/" +:+ name +:+ "/syncfifo".
Definition hookToken : string := "ready" +:+ nl.

(** Modelled from the spec: [pathExists], a helper of the package defined in
    another of its files; it says whether the path is there, or fails on an
    error of the file system. *)
Definition pathExists (path : string) : M bool :=
  attempt (OpStat path) IOFailure ("stat " +:+ path)
    (get (λ w, bool_decide (is_Some (os.lookupNode (w_fs w) path)))).

(** Modelled from the spec: [containerExists], a helper of the package defined
    in another of its files; the identity exists when it resolves to an
    engine record. *)
Definition containerExists (containerID : string) : M bool :=
  attempt (OpContainerExists containerID) IOFailure
    "failed to check path existence of config"
    (get (λ w, bool_decide (is_Some (w_engine w !! containerID)))).

(** Modelled from the spec: the hidden [internal] command that [startContainer]
    runs, defined in another file of the package.  It has the engine load the
    saved configuration and begin executing the container's init; the engine
    runs the start hook, which leaves when the fifo is missing and otherwise
    blocks opening it for writing, so that init stays at the barrier.  The
    command returns once init is launched and blocked there. *)
Definition internalCmd (name rootfs configFile : string) : M unit :=
  λ w, match os.lookupNode (w_fs w) configFile with
       | Some (NFile _ text) =>
           match os.lookupNode (w_fs w) (hookFifo name) with
           | Some (NFifo perm writers) =>
               (Ret tt,
                set_engine (<[name := mkRecord (lxc.parseConfig text) BlockedAtBarrier]>)
                  (set_fs (<[hookFifo name := NFifo perm (writers ++ [(name, hookToken)])]>) w))
           | _ => (Fail (mkError EngineFailure "exit status 1"), w)
           end
       | _ => (Fail (mkError EngineFailure "exit status 1"), w)
       end.

(** [exec.Command(name, arg...)] followed by [cmd.Run()], for the one command
    line the package runs: its own executable with [internal]. *)
Definition cmd_Run (argv : list string) (inheritStdio : bool) : M unit :=
  attempt (OpRun argv inheritStdio) IOFailure "fork/exec failed"
    (match argv with
     | [_; sub; name; rootfs; configFile] =>
         if decide (sub = "internal") then internalCmd name rootfs configFile
         else fail (mkError IOFailure "exit status 1")
     | _ => fail (mkError IOFailure "exit status 1")
     end).

(** [fmt.Fprintf(os.Stderr, "missing container ID\n")] and the exit after it. *)
Definition missingContainerID {A} (command : string) : M A :=
  let* _ := effect (add_stderr ("missing container ID" +:+ nl)) in
  cli.ShowCommandHelpAndExit command 1.

Definition makeSyncFifo (dir : string) : M unit :=
  let fifoFilename := filepath.Join [dir; "syncfifo"] in
  let* prevMask := unix.Umask 0 in
  defer (λ w, snd (unix.Umask prevMask w))
    (wrapErr (unix.Mkfifo fifoFilename 402)
       ("failed to make fifo '" +:+ fifoFilename +:+ "'")).

Definition startContainer (c : lxc.Container) (spec : specs.Spec) : M unit :=
  let* binary := os.Readlink "/proc/self/exe" in
  cmd_Run [binary; "internal"; lxc.Name c; specs.Path (specs.Root_ spec);
           filepath.Join ["/var/lib/lxc"; lxc.Name c; "config"]]
          (negb (specs.Terminal (specs.Process_ spec))).

(** [for _, envVar := range spec.Process.Env { ... }]. *)
Fixpoint setEnvironment (c : lxc.Container) (env : list string) : M lxc.Container :=
  match env with
  | [] => ret c
  | envVar :: rest =>
      let* c := (λ w, match lxc.SetConfigItem c "lxc.environment" envVar w with
                      | (Fail e, w') =>
                          (Fail (mkError (err_kind e)
                                   ("error setting environment variable '" +:+ envVar
                                    +:+ "': " +:+ err_msg e)), w')
                      | r => r
                      end) in
      setEnvironment c rest
  end.

(** [fmt.Sprintf("%s %s %s %s", ms.Source, ms.Destination, ms.Type, opts)]. *)
Definition mountEntry (ms : specs.Mount) : string :=
  let opts := GoStrings.Join (specs.Options ms) "," in
  specs.Source ms +:+ " " +:+ specs.Destination ms +:+ " " +:+ specs.Type_ ms
  +:+ " " +:+ opts.

(** [for _, ms := range spec.Mounts { ... }]. *)
Fixpoint setMounts (c : lxc.Container) (mounts : list specs.Mount) : M lxc.Container :=
  match mounts with
  | [] => ret c
  | ms :: rest =>
      let* c := wrapErr (lxc.SetConfigItem c "lxc.mount.entry" (mountEntry ms))
                  "failed to set mount config" in
      setMounts c rest
  end.

Definition savedConfigFile (c : lxc.Container) : string :=
  filepath.Join [DefaultConfigPath; lxc.Name c; "config"].

Definition configureContainer (ctx : cli.Context) (c : lxc.Container) (spec : specs.Spec)
  : M lxc.Container :=
  let c := if cli.debug ctx then lxc.SetVerbosity c lxc.Verbose else c in
  let* c := (match configureLogging ctx c with
             | (Some err, _) => fail (errors.Wrap err "failed to configure logging")
             | (None, c) => ret c
             end) in
  let rootfs := specs.Path (specs.Root_ spec) in
  let* c := wrapErr (lxc.SetConfigItem c "lxc.rootfs.path" rootfs)
              ("failed to set rootfs: '" +:+ rootfs +:+ "'") in
  let* c := wrapErr (lxc.SetConfigItem c "lxc.rootfs.managed" "0")
              "failed to set rootfs.managed to 0" in
  let* c := setEnvironment c (specs.Env (specs.Process_ spec)) in
  let* c := setMounts c (specs.Mounts spec) in
  let* c := wrapErr (lxc.SetConfigItem c "lxc.init.cwd" (specs.Cwd (specs.Process_ spec)))
              "failed to set CWD" in
  let* c := wrapErr (lxc.SetConfigItem c "lxc.uts.name" (specs.Hostname spec))
              "failed to set hostname" in
  let argsString := GoStrings.Join (specs.Args (specs.Process_ spec)) " " in
  let* c := wrapErr (lxc.SetConfigItem c "lxc.execute.cmd" argsString)
              "failed to set lxc.execute.cmd" in
  let* c := wrapErr (lxc.SetConfigItem c "lxc.hook.version" "1")
              "failed to set hook version" in
  let* _ := wrapErr (lxc.SaveConfigFile c (savedConfigFile c))
              ("failed to save config file to '" +:+ savedConfigFile c +:+ "'") in
  ret c.

Definition doCreate (ctx : cli.Context) : M unit :=
  let containerID := cli.Args_Get ctx 0 in
  let* _ := (if decide (String.length containerID = 0)
             then missingContainerID "create" else ret tt) in
  let* _ := Infof "creating container %s" [VString containerID] in
  let* exists_ := wrapErr (containerExists containerID)
                    "failed to check if container exists" in
  if (exists_ : bool) then
    fail (mkError AlreadyExists ("container '" +:+ containerID +:+ "' already exists"))
  else
  let* c := wrapErr (lxc.NewContainer containerID LXC_PATH)
              "failed to create new container" in
  defer (lxc.Release c)
   (let* spec := wrapErr
                   (λ w, match readBundleSpec (w_fs w)
                                 (filepath.Join [cli.bundle ctx; "config.json"]) with
                         | inl err => (Fail err, w)
                         | inr spec => (Ret spec, w)
                         end)
                   "couldn't load bundle spec" in
    let* _ := wrapErr (os.MkdirAll (filepath.Join [LXC_PATH; containerID]) 504)
                "failed to create container dir" in
    let syncFifoWaitHookFilename := filepath.Join [LXC_PATH; containerID; "sync-fifo-wait"] in
    let* _ := wrapErr (ioutil.WriteFile syncFifoWaitHookFilename syncFifoWaitHook 511)
                "failed to write sync hook" in
    let* c := wrapErr (lxc.SetConfigItem c "lxc.hook.start-host" syncFifoWaitHookFilename)
                "failed to set lxc.hook.start-host" in
    let* _ := wrapErr (makeSyncFifo (filepath.Join [LXC_PATH; containerID]))
                "failed to make sync fifo" in
    let* c := wrapErr (configureContainer ctx c spec) "failed to configure container" in
    let* _ := Infof "created syncfifo, executing %#v"
                [VStrings (specs.Args (specs.Process_ spec))] in
    let* _ := wrapErr (startContainer c spec) "failed to start the container init" in
    let* _ := Infof "created container %s in lxcdir %s" [VString containerID; VString LXC_PATH] in
    ret tt).

Definition doStart (ctx : cli.Context) : M unit :=
  let containerID := cli.Args_Get ctx 0 in
  let* _ := (if decide (String.length containerID = 0)
             then missingContainerID "state" else ret tt) in
  let* _ := Infof "about to create container" [] in
  let* c := wrapErr (lxc.NewContainer containerID LXC_PATH) "failed to load container" in
  defer (lxc.Release c)
   (let* _ := Infof "checking if running" [] in
    let* running := lxc.Running c in
    if (running : bool) then
      fail (mkError AlreadyRunning ("'" +:+ containerID +:+ "' is already running"))
    else
    let* _ := Infof "not running, can start" [] in
    let fifoPath := filepath.Join [LXC_PATH; containerID; "syncfifo"] in
    let* fifoExists := wrapErr (pathExists fifoPath)
                         "failed to check path existence of init fifo" in
    if negb fifoExists then
      fail (mkError BarrierMissing ("sync fifo '" +:+ fifoPath +:+ "' not found."))
    else
    let* _ := Infof "opening fifo '%s'" [VString fifoPath] in
    let* f := wrapErr (os.OpenFile fifoPath os.O_RDONLY 0) "failed to open sync fifo" in
    let* _ := Infof "opened fifo, reading" [] in
    let* data := wrapErr (ioutil.ReadAll f) "failed to read from sync fifo" in
    let* _ := Infof "read '%s' from fifo, done" [VString data] in
    ret tt).

(** [c.ConfigItem("lxc.rootfs.path")[0]]: indexing an empty slice panics. *)
Definition index0 (values : list string) : M string :=
  match values with
  | v :: _ => ret v
  | [] => λ w, (Panicked "runtime error: index out of range", w)
  end.

Definition doState (ctx : cli.Context) : M unit :=
  let containerID := cli.Args_Get ctx 0 in
  let* _ := (if decide (String.length containerID = 0)
             then missingContainerID "state" else ret tt) in
  let* exists_ := wrapErr (containerExists containerID)
                    "failed to check if container exists" in
  if negb exists_ then
    fail (mkError NotFound ("container '" +:+ containerID +:+ "' not found"))
  else
  let* c := wrapErr (lxc.NewContainer containerID LXC_PATH) "failed to load container" in
  defer (lxc.Release c)
   (let* c := (match configureLogging ctx c with
               | (Some err, _) => fail (errors.Wrap err "failed to configure logging")
               | (None, c) => ret c
               end) in
    let* running := lxc.Running c in
    let status := if (running : bool) then "running" else "stopped" in
    let pid := 0%Z in
    let* rootfs := index0 (lxc.ConfigItem c "lxc.rootfs.path") in
    let bundlePath := filepath.Dir rootfs in
    let annotations : gmap string string := ∅ in
    let s := specs.mkState CURRENT_OCI_VERSION containerID status pid bundlePath
               annotations in
    (* json.Marshal of strings, an int and a map of strings returns no error *)
    let stateJson := json.Marshal s in
    let* _ := fmt.Fprintf_Stdout stateJson in
    ret tt).

End Commands.

(** ** [main]

    [app.Run] runs the action of the command named on the command line; when
    the action returns an error, [main] prints it on standard error after
    [error: ] and exits with status 1.  With the global debug flag the error
    is printed with [%+v], the detailed form of the errors package, which is
    a parameter here; without it with [%v], the message of the error. *)

Definition main (detail : Error → string) (debug : bool)
    (action : cli.Context → M unit) (ctx : cli.Context) : M unit :=
  λ w, match action ctx w with
       | (Fail err, w') =>
           let shown := if debug then detail err else err_msg err in
           (Exited 1, add_stderr ("error: " +:+ shown +:+ GoStrings.nl) w')
       | r => r
       end.

(** ** Reading the saved configuration back *)

Module Recover.
Import GoStrings.

(** The values of the lines with key [key] in the text of a configuration. *)
Definition valuesOf (key text : string) : list string :=
  map snd (filter (λ kv, fst kv = key) (lxc.parseConfig text)).

(** The elements a joined list had; the empty text is the empty list. *)
Definition unjoin (s : string) (sep : ascii) : list string :=
  if decide (s = "") then [] else Split s sep.

(** A mount entry taken apart at its first three spaces. *)
Definition parseMount (entry : string) : option specs.Mount :=
  match cut space entry with
  | (src, Some r1) =>
      match cut space r1 with
      | (dst, Some r2) =>
          match cut space r2 with
          | (ty, Some opts) => Some (specs.mkMount dst ty src (unjoin opts comma))
          | _ => None
          end
      | _ => None
      end
  | _ => None
  end.

Definition environment (text : string) : list string := valuesOf "lxc.environment" text.

Definition mounts (text : string) : list (option specs.Mount) :=
  map parseMount (valuesOf "lxc.mount.entry" text).

Definition arguments (text : string) : option (list string) :=
  match valuesOf "lxc.execute.cmd" text with
  | [v] => Some (unjoin v space)
  | _ => None
  end.

(** Strings that can stand on a line, in a field of a mount entry, in a
    list joined by a separator. *)
Definition free (c : ascii) (s : string) : bool := negb (contains c s).
Definition joinable (sep : ascii) (l : list string) : bool :=
  forallb (free sep) l && negb (bool_decide (l = [""])).

Definition mountOK (ms : specs.Mount) : bool :=
  free space (specs.Source ms) && free space (specs.Destination ms)
  && free space (specs.Type_ ms) && joinable comma (specs.Options ms)
  && free newline (specs.Source ms) && free newline (specs.Destination ms)
  && free newline (specs.Type_ ms) && forallb (free newline) (specs.Options ms).

(** The bundle specs whose mounts, environment and arguments the saved
    configuration determines: no value holds a newline; no argument holds a
    space and no mount source, destination or type does; no mount option
    holds a comma; and neither the arguments nor the options of a mount are
    the list of one empty string. *)
Definition recoverable (spec : specs.Spec) : bool :=
  free newline (specs.Path (specs.Root_ spec))
  && forallb (free newline) (specs.Env (specs.Process_ spec))
  && forallb mountOK (specs.Mounts spec)
  && free newline (specs.Cwd (specs.Process_ spec))
  && free newline (specs.Hostname spec)
  && joinable space (specs.Args (specs.Process_ spec))
  && forallb (free newline) (specs.Args (specs.Process_ spec)).

(** The lines a handle may hold before [configureContainer] adds its own, for
    the text to be read back line by line: keys without space or newline,
    values without newline, and none of the three keys read back. *)
Definition lineOK (kv : string * string) : bool :=
  free space (fst kv) && free newline (fst kv) && free newline (snd kv).
Definition foreign (kv : string * string) : bool :=
  negb (bool_decide (fst kv = "lxc.environment"))
  && negb (bool_decide (fst kv = "lxc.mount.entry"))
  && negb (bool_decide (fst kv = "lxc.execute.cmd")).

End Recover.

(** ** Notions used in the statements *)

(** The kinds of error a computation can return. *)
Definition raises {A} (K : ErrKind → Prop) (m : M A) : Prop :=
  ∀ w e w', m w = (Fail e, w') → K (err_kind e).

(** The entry of a node in its directory: what it is and its permission
    bits, without the writers waiting on a fifo. *)
Definition entry (n : Node) : Node :=
  match n with NFifo perm _ => NFifo perm [] | _ => n end.

(** The operations that launch something, and those that read the pipe. *)
Definition isRun (o : Op) : bool :=
  match o with OpRun _ _ => true | _ => false end.

Section Notions.
Context `{Externals}.

(** The lines [configureContainer] sets for a bundle spec, in order. *)
Definition configLines (spec : specs.Spec) : list (string * string) :=
  [("lxc.rootfs.path", specs.Path (specs.Root_ spec)); ("lxc.rootfs.managed", "0")]
  ++ map (pair "lxc.environment") (specs.Env (specs.Process_ spec))
  ++ map (λ ms, ("lxc.mount.entry", mountEntry ms)) (specs.Mounts spec)
  ++ [("lxc.init.cwd", specs.Cwd (specs.Process_ spec));
      ("lxc.uts.name", specs.Hostname spec);
      ("lxc.execute.cmd", GoStrings.Join (specs.Args (specs.Process_ spec)) " ");
      ("lxc.hook.version", "1")].

Definition setOps (name : string) (lines : list (string * string)) : list Op :=
  map (λ kv, OpSetConfigItem name (fst kv) (snd kv)) lines.

Definition withItems (c : lxc.Container) (lines : list (string * string)) : lxc.Container :=
  lxc.mkContainer (lxc.Name c) (lxc.configPath c) (lxc.items c ++ lines) (lxc.verbosity c).

(** The state document of a container. *)
Definition stateOf (containerID : string) (running : bool) (rootfs : string) : specs.State :=
  specs.mkState CURRENT_OCI_VERSION containerID
    (if running then "running" else "stopped") 0 (filepath.Dir rootfs) ∅.


End Notions.

(** What a computation keeps, whatever its outcome. *)
Definition keeps {A} (R : World → World → Prop) (m : M A) : Prop :=
  ∀ w o w', m w = (o, w') → R w w'.

(** The kind of a node and its permission bits, without what it holds. *)
Definition shape (n : Node) : Node :=
  match n with
  | NDir perm => NDir perm
  | NFile perm _ => NFile perm ""
  | NFifo perm _ => NFifo perm []
  end.

(** Nothing on disk, in the engine or in the umask has changed. *)
Definition untouched (w w' : World) : Prop :=
  w_fs w' = w_fs w ∧ w_engine w' = w_engine w ∧ w_umask w' = w_umask w.

(** Every path still names a node of the kind and with the bits it had,
    every record of the engine is still there, and the umask and the
    standard output are as before. *)
Definition grown (w w' : World) : Prop :=
  (∀ path n, w_fs w !! path = Some n →
             ∃ n', w_fs w' !! path = Some n' ∧ shape n' = shape n)
  ∧ (∀ name, is_Some (w_engine w !! name) → is_Some (w_engine w' !! name))
  ∧ w_umask w' = w_umask w ∧ w_stdout w' = w_stdout w.

(** The only changes are writers gone from fifos and inits released: the
    directory entries, the configuration of every record, the umask and the
    standard output are as before. *)
Definition drained (w w' : World) : Prop :=
  (∀ path, entry <$> (w_fs w' !! path) = entry <$> (w_fs w !! path))
  ∧ (∀ name, rec_config <$> (w_engine w' !! name) = rec_config <$> (w_engine w !! name))
  ∧ w_umask w' = w_umask w ∧ w_stdout w' = w_stdout w.

(** The outcomes with which a function is left: a return or a panic. *)
Definition left {A} (o : Outcome A) : bool :=
  match o with Ret _ | Fail _ | Panicked _ => true | _ => false end.

(** A computation that changes nothing unless it returns. *)
Definition failsafe {A} (m : M A) : Prop :=
  ∀ w o w', m w = (o, w') → (∀ a, o ≠ Ret a) → untouched w w'.

(** The parts of [filepath.Clean]: whether a path is rooted, and the path
    written from its elements. *)
Definition rooted (path : string) : bool :=
  match path with
  | String c _ => Ascii.eqb c GoStrings.slash
  | EmptyString => false
  end.

Definition written (isRooted : bool) (elems : list string) : string :=
  match elems, isRooted with
  | [], true => "/"
  | [], false => "."
  | _, true => "/" +:+ GoStrings.Join elems "/"
  | _, false => GoStrings.Join elems "/"
  end.

(** A path element that [Clean] keeps as it is. *)
Definition plain (e : string) : Prop :=
  e ≠ "" ∧ e ≠ "." ∧ e ≠ ".." ∧ GoStrings.contains GoStrings.slash e = false.

(** The stack of [Clean]: plain elements above the [..] it could not
    resolve, of which a rooted path has none. *)
Definition stacked (isRooted : bool) (acc : list string) : Prop :=
  ∃ tops n, acc = tops ++ repeat ".." n ∧ Forall plain tops
            ∧ (isRooted = true → n = 0).

(** ** A deployment, for examples

    The engine's library path and the package's are the directory the hook
    script opens its fifo in; the bundle has one mount, two environment
    variables and the command [/bin/true]. *)

Module Example.

Definition spec : specs.Spec :=
  specs.mkSpec (specs.mkProcess false ["/bin/true"] ["PATH=/bin"; "TERM=xterm"] "/")
    (specs.mkRoot "/bundles/b1/rootfs") "host"
    [specs.mkMount "/proc" "proc" "proc" ["nosuid"; "noexec"]].

Definition deployment : Externals := {|
  LXC_PATH := "/var/lib/lxc";
  CURRENT_OCI_VERSION := "0.2.1";
  DefaultConfigPath := "/var/lib/lxc";
  readBundleSpec := λ _ _, inr spec;
  configureLogging := λ _ c, (None, c);
  configureLogging_Name := λ _ _, eq_refl |}.

(** Nothing on disk, no record, umask 022, no faults. *)
Definition empty : World :=
  mkWorld ∅ ∅ 18 "/usr/bin/crio-lxc" (λ _, false) [] [] "" "".

Definition ctx (containerID : string) : cli.Context :=
  cli.mkContext [containerID] "/bundles/b1" false.

(** The world after [create c1], and after [start c1]. *)
Definition created : World := snd (@doCreate deployment (ctx "c1") empty).
Definition started : World := snd (@doStart deployment (ctx "c1") created).

(** A bundle in a directory with a percent sign in its name, and the world
    after the create of a container from it. *)
Definition percentSpec : specs.Spec :=
  specs.mkSpec (specs.mkProcess false ["/bin/true"] [] "/")
    (specs.mkRoot "/srv/50%/rootfs") "host" [].

Definition percentDeployment : Externals := {|
  LXC_PATH := "/var/lib/lxc";
  CURRENT_OCI_VERSION := "0.2.1";
  DefaultConfigPath := "/var/lib/lxc";
  readBundleSpec := λ _ _, inr percentSpec;
  configureLogging := λ _ c, (None, c);
  configureLogging_Name := λ _ _, eq_refl |}.

(** A handle for [c1], the world with the directory of [c1], and the bundle
    spec with other arguments. *)
Definition handle : lxc.Container := lxc.mkContainer "c1" "/var/lib/lxc" [] false.
Definition prepared : World := snd (os.MkdirAll "/var/lib/lxc/c1" 504 empty).
Definition withArgs (args : list string) : specs.Spec :=
  specs.mkSpec (specs.mkProcess false args ["PATH=/bin"; "TERM=xterm"] "/")
    (specs.mkRoot "/bundles/b1/rootfs") "host"
    [specs.mkMount "/proc" "proc" "proc" ["nosuid"; "noexec"]].

(** The handle [configureContainer] leaves for the bundle spec, and the world. *)
Definition configured : lxc.Container * World :=
  match @configureContainer deployment (ctx "c1") handle spec prepared with
  | (Ret c, w) => (c, w)
  | (_, w) => (handle, w)
  end.

(** The record of [c1] after its create. *)
Definition record : ContainerRecord :=
  default (mkRecord [] Stopped) (w_engine created !! "c1").

Definition percentCreated : World :=
  snd (@doCreate percentDeployment (cli.mkContext ["c1"] "/srv/50%" false) empty).

(** The world with the directory of [c1] and its fifo, nothing launched. *)
Definition provisioned : World := snd (makeSyncFifo "/var/lib/lxc/c1" prepared).

(** A deployment whose bundle spec reader fails. *)
Definition unreadable : Externals := {|
  LXC_PATH := "/var/lib/lxc";
  CURRENT_OCI_VERSION := "0.2.1";
  DefaultConfigPath := "/var/lib/lxc";
  readBundleSpec := λ _ _, inl (mkError IOFailure "open config.json: no such file or directory");
  configureLogging := λ _ c, (None, c);
  configureLogging_Name := λ _ _, eq_refl |}.

(** The world with the directory of [c1] where the engine rejects the second
    environment variable of the bundle spec. *)
Definition rejecting : World :=
  mkWorld (w_fs prepared) ∅ 18 "/usr/bin/crio-lxc"
    (λ o, bool_decide (o = OpSetConfigItem "c1" "lxc.environment" "TERM=xterm"))
    [] [] "" "".

End Example.

(** * Properties *)

(** ** The monad and the world *)

Lemma length_zero_empty (s : string) : String.length s = 0 ↔ s = "".
Proof. destruct s; simpl; split; congruence. Qed.

Lemma add_traces_add_traces a b w :
  add_traces b (add_traces a w) = add_traces (a ++ b) w.
Proof. unfold add_traces; simpl. by rewrite <- app_assoc. Qed.

Lemma bind_Ret {A B} (m : M A) (k : A → M B) w b w' :
  bind m k w = (Ret b, w') → ∃ a w1, m w = (Ret a, w1) ∧ k a w1 = (Ret b, w').
Proof.
  unfold bind. destruct (m w) as [[a| | | |] w1]; try discriminate. eauto.
Qed.

Lemma wrapErr_Ret {A} (m : M A) msg w a w' :
  wrapErr m msg w = (Ret a, w') → m w = (Ret a, w').
Proof. unfold wrapErr. destruct (m w) as [[| | | |] ?]; congruence. Qed.

Lemma defer_Ret {A} cleanup (body : M A) w a w' :
  defer cleanup body w = (Ret a, w') → ∃ w1, body w = (Ret a, w1) ∧ w' = cleanup w1.
Proof.
  unfold defer. destruct (body w) as [[| | | |] w1]; try discriminate.
  intros [= -> <-]. eauto.
Qed.

Lemma attempt_Ret {A} o kind what (run : M A) w a w' :
  attempt o kind what run w = (Ret a, w') →
  w_fault w o = false ∧ run (add_trace o w) = (Ret a, w').
Proof. unfold attempt. destruct (w_fault w o); [discriminate | eauto]. Qed.

Lemma raises_ret {A} K (a : A) : raises K (ret a).
Proof. intros w e w'. discriminate. Qed.

Lemma raises_effect K f : raises K (effect f).
Proof. intros w e w'. discriminate. Qed.

Lemma raises_get {A} K (f : World → A) : raises K (get f).
Proof. intros w e w'. discriminate. Qed.

Lemma raises_fail {A} (K : ErrKind → Prop) e : K (err_kind e) → raises K (@fail A e).
Proof. intros HK w e' w' [= <- _]. done. Qed.

Lemma raises_bind {A B} K (m : M A) (k : A → M B) :
  raises K m → (∀ a, raises K (k a)) → raises K (bind m k).
Proof.
  intros Hm Hk w e w'. unfold bind.
  destruct (m w) as [[a|e1| | |] w1] eqn:Hmw; try discriminate.
  - apply Hk.
  - intros [= <- <-]. eapply Hm, Hmw.
Qed.

Lemma raises_wrapErr {A} K (m : M A) msg : raises K m → raises K (wrapErr m msg).
Proof.
  intros Hm w e w'. unfold wrapErr.
  destruct (m w) as [[a|e1| | |] w1] eqn:Hmw; try discriminate.
  intros [= <- <-]. simpl. eapply Hm, Hmw.
Qed.

Lemma raises_defer {A} K cleanup (m : M A) : raises K m → raises K (defer cleanup m).
Proof.
  intros Hm w e w'. unfold defer.
  destruct (m w) as [[a|e1| | |] w1] eqn:Hmw; try discriminate.
  intros [= <- <-]. eapply Hm, Hmw.
Qed.

Lemma raises_attempt {A} (K : ErrKind → Prop) o kind what (run : M A) :
  K kind → raises K run → raises K (attempt o kind what run).
Proof.
  intros HK Hrun w e w'. unfold attempt. destruct (w_fault w o).
  - intros [= <- _]. done.
  - apply Hrun.
Qed.

(** ** The primitives, when they return *)

Lemma lookupNode_fifo fs p perm ws :
  os.lookupNode fs p = Some (NFifo perm ws) →
  fs !! p = Some (NFifo perm ws) ∧ p ≠ "/" ∧ p ≠ ".".
Proof. unfold os.lookupNode. repeat case_decide; try discriminate. auto. Qed.

Lemma lookupNode_insert fs p n :
  p ≠ "/" → p ≠ "." → os.lookupNode (<[p := n]> fs) p = Some n.
Proof.
  intros. unfold os.lookupNode. repeat case_decide; try done. apply lookup_insert_eq.
Qed.

Lemma lookupNode_insert_ne fs p q n :
  p ≠ q → os.lookupNode (<[p := n]> fs) q = os.lookupNode fs q.
Proof.
  intros. unfold os.lookupNode. repeat case_decide; try done. by apply lookup_insert_ne.
Qed.

Lemma NewContainer_Ret name path w c w' :
  lxc.NewContainer name path w = (Ret c, w') →
  w_fault w (OpNewContainer name path) = false
  ∧ w' = add_trace (OpNewContainer name path) w
  ∧ c = lxc.mkContainer name path
          (match w_engine w !! name with Some r => rec_config r | None => [] end) false.
Proof.
  intros Hrun. apply attempt_Ret in Hrun as [Hf Hrun].
  unfold get in Hrun. by simplify_eq.
Qed.

Lemma OpenFile_Ret name flag perm w f w' :
  os.OpenFile name flag perm w = (Ret f, w') →
  w_fault w (OpOpenFile name flag perm) = false
  ∧ w' = add_trace (OpOpenFile name flag perm) w ∧ f = name
  ∧ ∃ n, os.lookupNode (w_fs w) name = Some n ∧ ∀ p, n ≠ NFifo p [].
Proof.
  intros Hrun. apply attempt_Ret in Hrun as [Hf Hrun]. simpl in Hrun.
  destruct (os.lookupNode (w_fs w) name) as [[| |p [|]]|] eqn:Hn; simplify_eq;
    repeat split; eauto.
Qed.

Lemma ReadAll_fifo_Ret f w data w' perm writers :
  os.lookupNode (w_fs w) f = Some (NFifo perm writers) →
  ioutil.ReadAll f w = (Ret data, w') →
  w_fault w (OpReadAll f) = false
  ∧ data = String.concat "" (map snd writers)
  ∧ w' = set_engine (λ e, fold_left Engine.releaseInit (map fst writers) e)
           (set_fs (<[f := NFifo perm []]>) (add_trace (OpReadAll f) w)).
Proof.
  intros Hn Hrun. apply attempt_Ret in Hrun as [Hf Hrun]. simpl in Hrun.
  rewrite Hn in Hrun. by simplify_eq.
Qed.

(** Releasing the inits of [names]: a container among them that was blocked
    at the barrier runs afterwards. *)
Lemma releaseInit_other engine name other :
  name ≠ other → Engine.releaseInit engine name !! other = engine !! other.
Proof.
  intros Hne. unfold Engine.releaseInit.
  destruct (engine !! name) as [r|]; [| done].
  case_decide; [| done]. by rewrite lookup_insert_ne.
Qed.

Lemma releaseInit_running engine name other r :
  engine !! other = Some r → rec_status r = RunningUser →
  ∃ r', Engine.releaseInit engine name !! other = Some r' ∧ rec_status r' = RunningUser.
Proof.
  intros Hr Hs. destruct (decide (name = other)) as [-> | Hne].
  - unfold Engine.releaseInit. rewrite Hr. case_decide; [congruence | eauto].
  - rewrite releaseInit_other by done. eauto.
Qed.

Lemma releaseInit_blocked engine name r :
  engine !! name = Some r → rec_status r = BlockedAtBarrier →
  ∃ r', Engine.releaseInit engine name !! name = Some r' ∧ rec_status r' = RunningUser.
Proof.
  intros Hr Hs. unfold Engine.releaseInit. rewrite Hr.
  case_decide; [| done]. rewrite lookup_insert_eq. eauto.
Qed.

Lemma release_all_running names : ∀ engine other r,
  engine !! other = Some r → rec_status r = RunningUser →
  ∃ r', fold_left Engine.releaseInit names engine !! other = Some r'
        ∧ rec_status r' = RunningUser.
Proof.
  induction names as [|n names IH]; intros engine other r Hr Hs; simpl; [eauto |].
  destruct (releaseInit_running engine n other r Hr Hs) as (r' & Hr' & Hs'). eauto.
Qed.

Lemma release_all_blocked names : ∀ engine name r,
  name ∈ names → engine !! name = Some r → rec_status r = BlockedAtBarrier →
  ∃ r', fold_left Engine.releaseInit names engine !! name = Some r'
        ∧ rec_status r' = RunningUser.
Proof.
  induction names as [|n names IH]; intros engine name r Hin Hr Hs; simpl.
  { by apply elem_of_nil in Hin. }
  destruct (decide (n = name)) as [-> | Hne].
  - destruct (releaseInit_blocked engine name r Hr Hs) as (r' & Hr' & Hs').
    eapply release_all_running; eauto.
  - apply elem_of_cons in Hin as [-> | Hin]; [done |].
    eapply IH; eauto. by rewrite releaseInit_other.
Qed.

Section CommandProperties.
Context `{Externals}.
Import GoStrings.

(** *** Create on an identity that exists *)

Lemma doCreate_exists ctx w r :
  let containerID := cli.Args_Get ctx 0 in
  containerID ≠ "" →
  w_fault w (OpContainerExists containerID) = false →
  w_engine w !! containerID = Some r →
  doCreate ctx w =
    (Fail (mkError AlreadyExists ("container '" +:+ containerID +:+ "' already exists")),
     add_trace (OpContainerExists containerID)
       (add_log ("creating container %s", [VString containerID]) w)).
Proof.
  intros id Hid Hfault Hrec. unfold doCreate. fold id.
  destruct (decide (String.length id = 0)) as [Hlen | _].
  { by apply length_zero_empty in Hlen. }
  unfold bind, wrapErr, containerExists, attempt, ret, Infof, effect, get, fail. simpl.
  rewrite Hfault, Hrec. simpl. done.
Qed.

(** *** Start *)

Lemma pathExists_Ret path w b w' :
  pathExists path w = (Ret b, w') →
  w_fault w (OpStat path) = false ∧ w' = add_trace (OpStat path) w
  ∧ b = bool_decide (is_Some (os.lookupNode (w_fs w) path)).
Proof.
  intros Hrun. apply attempt_Ret in Hrun as [Hf Hrun].
  unfold get in Hrun. by simplify_eq.
Qed.

(** What a start that returns has done, when the path of the sync fifo names
    a fifo. *)
Lemma doStart_Ret_fifo ctx w w' perm writers :
  let containerID := cli.Args_Get ctx 0 in
  let fifoPath := filepath.Join [LXC_PATH; containerID; "syncfifo"] in
  os.lookupNode (w_fs w) fifoPath = Some (NFifo perm writers) →
  doStart ctx w = (Ret tt, w') →
  containerID ≠ "" ∧ writers ≠ []
  ∧ w_fault w (OpNewContainer containerID LXC_PATH) = false
  ∧ (∀ r, w_engine w !! containerID = Some r → rec_status r ≠ RunningUser)
  ∧ w_fs w' = <[fifoPath := NFifo perm []]> (w_fs w)
  ∧ w_engine w' = fold_left Engine.releaseInit (map fst writers) (w_engine w)
  ∧ w_trace w' = w_trace w ++
      [OpNewContainer containerID LXC_PATH; OpStat fifoPath;
       OpOpenFile fifoPath os.O_RDONLY 0; OpReadAll fifoPath; OpRelease containerID]
  ∧ w_log w' = w_log w ++
      [("about to create container", []); ("checking if running", []);
       ("not running, can start", []); ("opening fifo '%s'", [VString fifoPath]);
       ("opened fifo, reading", []);
       ("read '%s' from fifo, done", [VString (String.concat "" (map snd writers))])]
  ∧ w_fault w' = w_fault w ∧ w_stdout w' = w_stdout w.
Proof.
  intros id fifo Hnode Hrun. unfold doStart in Hrun. fold id in Hrun. fold fifo in Hrun.
  apply bind_Ret in Hrun as (a0 & w0 & H0 & Hrun).
  destruct (decide (String.length id = 0)) as [|Hlen]; [discriminate H0 |].
  injection H0 as <- <-.
  apply bind_Ret in Hrun as (a1 & w1 & H1 & Hrun). injection H1 as <- <-.
  apply bind_Ret in Hrun as (c & w2 & H2 & Hrun).
  apply wrapErr_Ret, NewContainer_Ret in H2 as (Hf2 & -> & ->).
  apply defer_Ret in Hrun as (w3 & Hrun & ->).
  apply bind_Ret in Hrun as (a3 & w4 & H3 & Hrun). injection H3 as <- <-.
  apply bind_Ret in Hrun as (running & w5 & H5 & Hrun). injection H5 as <- <-.
  match type of Hrun with (if ?b then _ else _) _ = _ => destruct b eqn:Hrunning end;
    [discriminate Hrun |].
  apply bind_Ret in Hrun as (a6 & w6 & H6 & Hrun). injection H6 as <- <-.
  apply bind_Ret in Hrun as (fifoExists & w7 & H7 & Hrun).
  apply wrapErr_Ret, pathExists_Ret in H7 as (Hf7 & -> & ->).
  match type of Hrun with (if ?b then _ else _) _ = _ => destruct b end;
    [discriminate Hrun |].
  apply bind_Ret in Hrun as (a8 & w8 & H8 & Hrun). injection H8 as <- <-.
  apply bind_Ret in Hrun as (f & w9 & H9 & Hrun).
  apply wrapErr_Ret, OpenFile_Ret in H9 as (Hf9 & -> & -> & nd & Hnd & Hnw).
  simpl in Hnd. rewrite Hnode in Hnd. injection Hnd as <-.
  apply bind_Ret in Hrun as (a10 & w10 & H10 & Hrun). injection H10 as <- <-.
  apply bind_Ret in Hrun as (data & w11 & H11 & Hrun). apply wrapErr_Ret in H11.
  eapply ReadAll_fifo_Ret in H11; [| simpl; exact Hnode].
  destruct H11 as (Hf11 & -> & ->).
  apply bind_Ret in Hrun as (a12 & w12 & H12 & Hrun). injection H12 as <- <-.
  injection Hrun as <-.
  split; [by rewrite <- length_zero_empty |].
  split; [intros ->; by apply (Hnw perm) |].
  split; [done |].
  split.
  { intros r Hr Hs. simpl in Hrunning. rewrite Hr in Hrunning.
    by rewrite bool_decide_eq_false in Hrunning. }
  simpl. rewrite <- !app_assoc. done.
Qed.

(** C1: for a container whose sync pipe exists and whose record is not
    reported running, a start that succeeds has opened the pipe read-only and
    read it to its end: the trace of the call is the load of the handle, the
    existence check, the open with [O_RDONLY], the read to end-of-stream and
    the release of the handle, in this order; a writer was there and its
    bytes are what was read; and the pipe holds no writer when the call
    returns. *)
Theorem doStart_drains_pipe ctx w w' :
  let containerID := cli.Args_Get ctx 0 in
  let fifoPath := filepath.Join [LXC_PATH; containerID; "syncfifo"] in
  isFifo (os.lookupNode (w_fs w) fifoPath) = true →
  (∀ r, w_engine w !! containerID = Some r → rec_status r ≠ RunningUser) →
  doStart ctx w = (Ret tt, w') →
  ∃ perm writers,
    os.lookupNode (w_fs w) fifoPath = Some (NFifo perm writers) ∧ writers ≠ []
    ∧ w_trace w' = w_trace w ++
        [OpNewContainer containerID LXC_PATH; OpStat fifoPath;
         OpOpenFile fifoPath os.O_RDONLY 0; OpReadAll fifoPath; OpRelease containerID]
    ∧ last (w_log w') =
        Some ("read '%s' from fifo, done", [VString (String.concat "" (map snd writers))])
    ∧ os.lookupNode (w_fs w') fifoPath = Some (NFifo perm []).
Proof.
  intros id fifo Hfifo _ Hrun.
  destruct (os.lookupNode (w_fs w) fifo) as [[| |perm writers]|] eqn:Hnode;
    try discriminate Hfifo.
  destruct (doStart_Ret_fifo ctx w w' perm writers Hnode Hrun)
    as (_ & Hw & _ & _ & Hfs & _ & Htrace & Hlog & _).
  exists perm, writers. repeat split; try done.
  - rewrite Hlog. by rewrite (last_app_cons _ _ _), !last_cons.
  - rewrite Hfs. apply lookupNode_fifo in Hnode as (_ & ? & ?).
    by apply lookupNode_insert.
Qed.

(** With the pipe in place and no writer on it, a start does not return: it
    stays in the open of the pipe. *)
Lemma doStart_blocks_without_writer ctx w perm :
  let containerID := cli.Args_Get ctx 0 in
  let fifoPath := filepath.Join [LXC_PATH; containerID; "syncfifo"] in
  containerID ≠ "" →
  (∀ o, w_fault w o = false) →
  (∀ r, w_engine w !! containerID = Some r → rec_status r ≠ RunningUser) →
  os.lookupNode (w_fs w) fifoPath = Some (NFifo perm []) →
  fst (doStart ctx w) = Blocked.
Proof.
  intros id fifo Hid Hfault Hrun Hnode. unfold doStart. fold id. fold fifo.
  destruct (decide (String.length id = 0)) as [Hlen | _].
  { by apply length_zero_empty in Hlen. }
  unfold bind, wrapErr, defer, lxc.NewContainer, lxc.Running, pathExists, os.OpenFile,
    attempt, ret, Infof, effect, get, fail. simpl.
  rewrite !Hfault. simpl.
  assert (match w_engine w !! id with
          | Some r => bool_decide (rec_status r = RunningUser)
          | None => false
          end = false) as ->.
  { destruct (w_engine w !! id) as [r|] eqn:Hr; [| done].
    apply bool_decide_eq_false. by apply Hrun. }
  simpl. rewrite !Hfault. simpl. rewrite Hnode. simpl.
  rewrite !Hfault. simpl. rewrite Hnode. done.
Qed.

(** A start on a container that the engine reports running. *)
Lemma doStart_running ctx w r :
  let containerID := cli.Args_Get ctx 0 in
  containerID ≠ "" →
  w_fault w (OpNewContainer containerID LXC_PATH) = false →
  w_engine w !! containerID = Some r → rec_status r = RunningUser →
  doStart ctx w =
    (Fail (mkError AlreadyRunning ("'" +:+ containerID +:+ "' is already running")),
     add_trace (OpRelease containerID)
       (add_log ("checking if running", [])
          (add_trace (OpNewContainer containerID LXC_PATH)
             (add_log ("about to create container", []) w)))).
Proof.
  intros id Hid Hfault Hrec Hs. unfold doStart. fold id.
  destruct (decide (String.length id = 0)) as [Hlen | _].
  { by apply length_zero_empty in Hlen. }
  unfold bind, wrapErr, defer, lxc.NewContainer, lxc.Running, attempt, ret, Infof,
    effect, get, fail. simpl.
  rewrite Hfault. simpl. rewrite Hrec. simpl.
  rewrite bool_decide_eq_true_2 by done. done.
Qed.

(** C6: a start on a container that the engine reports running fails with
    [AlreadyRunning] and leaves the barrier alone: the file system and the
    engine are as before, and the call neither looked at the pipe, nor opened
    it, nor read it.  In particular a second start is rejected after a first
    one that succeeded and released the init of the container. *)
Theorem doStart_running_rejected ctx w :
  let containerID := cli.Args_Get ctx 0 in
  let fifoPath := filepath.Join [LXC_PATH; containerID; "syncfifo"] in
  let rejected w1 :=
    ∃ w2, doStart ctx w1 =
            (Fail (mkError AlreadyRunning ("'" +:+ containerID +:+ "' is already running")),
             w2)
          ∧ w_fs w2 = w_fs w1 ∧ w_engine w2 = w_engine w1
          ∧ w_trace w2 = w_trace w1 ++
              [OpNewContainer containerID LXC_PATH; OpRelease containerID] in
  containerID ≠ "" →
  w_fault w (OpNewContainer containerID LXC_PATH) = false →
  (∀ r, w_engine w !! containerID = Some r → rec_status r = RunningUser → rejected w)
  ∧ (∀ perm writers r w1,
       os.lookupNode (w_fs w) fifoPath = Some (NFifo perm writers) →
       containerID ∈ map fst writers →
       w_engine w !! containerID = Some r → rec_status r = BlockedAtBarrier →
       doStart ctx w = (Ret tt, w1) →
       rejected w1).
Proof.
  intros id fifo rejected Hid Hfault.
  assert (Hrej : ∀ w1 r, w_fault w1 (OpNewContainer id LXC_PATH) = false →
            w_engine w1 !! id = Some r → rec_status r = RunningUser → rejected w1).
  { intros w1 r Hf Hr Hs. eexists. split; [by eapply doStart_running |].
    simpl. rewrite <- !app_assoc. done. }
  split.
  - intros r Hr Hs. by eapply Hrej.
  - intros perm writers r w1 Hnode Hin Hr Hs Hrun.
    destruct (doStart_Ret_fifo ctx w w1 perm writers Hnode Hrun)
      as (_ & _ & _ & _ & _ & Heng & _ & _ & Hf & _).
    destruct (release_all_blocked (map fst writers) (w_engine w) id r Hin Hr Hs)
      as (r' & Hr' & Hs').
    apply (Hrej w1 r'); [by rewrite Hf | by rewrite Heng | done].
Qed.

(** No error of a start is of the kind [NotFound]: the command has no check
    that the identity resolves to a record. *)
Lemma doStart_raises ctx : raises (λ k, k ≠ NotFound) (doStart ctx).
Proof.
  unfold doStart.
  apply raises_bind.
  { destruct (decide _) as [Hlen | Hlen]; [| apply raises_ret].
    intros w err w'. discriminate. }
  intros _. apply raises_bind; [apply raises_effect |].
  intros _. apply raises_bind.
  { apply raises_wrapErr, raises_attempt; [done | apply raises_get]. }
  intros c. apply raises_defer.
  apply raises_bind; [apply raises_effect |].
  intros _. apply raises_bind; [apply raises_get |].
  intros [|]; [by apply raises_fail |].
  apply raises_bind; [apply raises_effect |].
  intros _. apply raises_bind.
  { apply raises_wrapErr, raises_attempt; [done | apply raises_get]. }
  intros [|]; simpl; [| by apply raises_fail].
  apply raises_bind; [apply raises_effect |].
  intros _. apply raises_bind.
  { apply raises_wrapErr, raises_attempt; [done |].
    intros w err w'. repeat case_match; try discriminate; by intros [= <- _]. }
  intros f. apply raises_bind; [apply raises_effect |].
  intros _. apply raises_bind.
  { apply raises_wrapErr, raises_attempt; [done |].
    intros w err w'. repeat case_match; try discriminate; by intros [= <- _]. }
  intros data. apply raises_bind; [apply raises_effect |].
  intros _. apply raises_ret.
Qed.

(** C10: a start that succeeds leaves the sync pipe in place: the path still
    names the fifo, with the permission bits it had, and only the bytes of
    its writers are gone; no path of the file system was removed or added. *)
Theorem doStart_keeps_pipe ctx w w' :
  let containerID := cli.Args_Get ctx 0 in
  let fifoPath := filepath.Join [LXC_PATH; containerID; "syncfifo"] in
  isFifo (os.lookupNode (w_fs w) fifoPath) = true →
  doStart ctx w = (Ret tt, w') →
  (∃ perm writers,
     os.lookupNode (w_fs w) fifoPath = Some (NFifo perm writers)
     ∧ os.lookupNode (w_fs w') fifoPath = Some (NFifo perm []))
  ∧ (∀ path, entry <$> (w_fs w' !! path) = entry <$> (w_fs w !! path))
  ∧ ∀ o, o ∈ w_trace w' → o ∈ w_trace w ∨ o = OpNewContainer containerID LXC_PATH
         ∨ o = OpStat fifoPath ∨ o = OpOpenFile fifoPath os.O_RDONLY 0
         ∨ o = OpReadAll fifoPath ∨ o = OpRelease containerID.
Proof.
  intros id fifo Hfifo Hrun.
  destruct (os.lookupNode (w_fs w) fifo) as [[| |perm writers]|] eqn:Hnode;
    try discriminate Hfifo.
  destruct (doStart_Ret_fifo ctx w w' perm writers Hnode Hrun)
    as (_ & _ & _ & _ & Hfs & _ & Htrace & _).
  apply lookupNode_fifo in Hnode as (Hlook & ? & ?).
  split; [| split].
  - exists perm, writers. split; [done |]. rewrite Hfs. by apply lookupNode_insert.
  - intros path. rewrite Hfs. destruct (decide (fifo = path)) as [<- | Hne].
    + by rewrite lookup_insert_eq, Hlook.
    + by rewrite lookup_insert_ne.
  - intros o. rewrite Htrace, elem_of_app, !elem_of_cons, elem_of_nil. tauto.
Qed.

(** *** Create *)

Lemma add_traces_nil w : add_traces [] w = w.
Proof. destruct w. unfold add_traces. simpl. by rewrite app_nil_r. Qed.

Lemma withItems_nil c : withItems c [] = c.
Proof. destruct c. unfold withItems. simpl. by rewrite app_nil_r. Qed.

Lemma withItems_withItems c a b : withItems (withItems c a) b = withItems c (a ++ b).
Proof. unfold withItems. simpl. by rewrite <- app_assoc. Qed.

Lemma SetConfigItem_Ret c key value w c' w' :
  lxc.SetConfigItem c key value w = (Ret c', w') →
  w_fault w (OpSetConfigItem (lxc.Name c) key value) = false
  ∧ c' = withItems c [(key, value)]
  ∧ w' = add_traces (setOps (lxc.Name c) [(key, value)]) w.
Proof.
  intros Hrun. apply attempt_Ret in Hrun as [Hf Hrun].
  unfold ret in Hrun. by simplify_eq.
Qed.

Lemma setEnvironment_Ret env : ∀ c w c' w',
  setEnvironment c env w = (Ret c', w') →
  c' = withItems c (map (pair "lxc.environment") env)
  ∧ w' = add_traces (setOps (lxc.Name c) (map (pair "lxc.environment") env)) w.
Proof.
  induction env as [|e env IH]; intros c w c' w' Hrun; simpl in Hrun.
  - injection Hrun as <- <-. by rewrite withItems_nil, add_traces_nil.
  - apply bind_Ret in Hrun as (c1 & w1 & H1 & Hrun).
    assert (lxc.SetConfigItem c "lxc.environment" e w = (Ret c1, w1)) as Hset.
    { destruct (lxc.SetConfigItem c "lxc.environment" e w) as [[| | | |] ?];
        simpl in H1; congruence. }
    apply SetConfigItem_Ret in Hset as (_ & -> & ->).
    apply IH in Hrun as (-> & ->). simpl.
    by rewrite withItems_withItems, add_traces_add_traces.
Qed.

Lemma setMounts_Ret mounts : ∀ c w c' w',
  setMounts c mounts w = (Ret c', w') →
  c' = withItems c (map (λ ms, ("lxc.mount.entry", mountEntry ms)) mounts)
  ∧ w' = add_traces
           (setOps (lxc.Name c) (map (λ ms, ("lxc.mount.entry", mountEntry ms)) mounts)) w.
Proof.
  induction mounts as [|ms mounts IH]; intros c w c' w' Hrun; simpl in Hrun.
  - injection Hrun as <- <-. by rewrite withItems_nil, add_traces_nil.
  - apply bind_Ret in Hrun as (c1 & w1 & H1 & Hrun).
    apply wrapErr_Ret, SetConfigItem_Ret in H1 as (_ & -> & ->).
    apply IH in Hrun as (-> & ->). simpl.
    by rewrite withItems_withItems, add_traces_add_traces.
Qed.

(** A write of a whole file that returns: the path names a regular file with
    the data written, and nothing else on disk has changed. *)
Lemma writeWhole_Ret what path data perm w w' :
  os.writeWhole what path data perm w = (Ret tt, w') →
  (∃ p, w' = set_fs (<[path := NFile p data]>) w)
  ∧ ∀ q ws, os.lookupNode (w_fs w) path ≠ Some (NFifo q ws).
Proof.
  unfold os.writeWhole. destruct (negb _); [discriminate |].
  destruct (os.lookupNode (w_fs w) path) as [[| |]|]; intros Hrun; simplify_eq;
    split; eauto; done.
Qed.

Lemma configureContainer_Ret ctx c spec w c' w' :
  configureContainer ctx c spec w = (Ret c', w') →
  ∃ c1 p,
    configureLogging ctx (if cli.debug ctx then lxc.SetVerbosity c lxc.Verbose else c)
      = (None, c1)
    ∧ c' = withItems c1 (configLines spec)
    ∧ w' = set_fs (<[savedConfigFile c' := NFile p (lxc.renderConfig (lxc.items c'))]>)
             (add_traces (setOps (lxc.Name c1) (configLines spec)
                          ++ [OpSaveConfigFile (lxc.Name c1) (savedConfigFile c')]) w)
    ∧ ∀ q ws, os.lookupNode (w_fs w) (savedConfigFile c') ≠ Some (NFifo q ws).
Proof.
  intros Hrun. unfold configureContainer in Hrun.
  apply bind_Ret in Hrun as (c1 & w1 & H1 & Hrun).
  destruct (configureLogging ctx _) as [[err|] c1'] eqn:Hlog; [discriminate H1 |].
  injection H1 as <- <-.
  apply bind_Ret in Hrun as (c2 & w2 & H2 & Hrun).
  apply wrapErr_Ret, SetConfigItem_Ret in H2 as (_ & -> & ->).
  apply bind_Ret in Hrun as (c3 & w3 & H3 & Hrun).
  apply wrapErr_Ret, SetConfigItem_Ret in H3 as (_ & -> & ->).
  apply bind_Ret in Hrun as (c4 & w4 & H4 & Hrun).
  apply setEnvironment_Ret in H4 as (-> & ->).
  apply bind_Ret in Hrun as (c5 & w5 & H5 & Hrun).
  apply setMounts_Ret in H5 as (-> & ->).
  apply bind_Ret in Hrun as (c6 & w6 & H6 & Hrun).
  apply wrapErr_Ret, SetConfigItem_Ret in H6 as (_ & -> & ->).
  apply bind_Ret in Hrun as (c7 & w7 & H7 & Hrun).
  apply wrapErr_Ret, SetConfigItem_Ret in H7 as (_ & -> & ->).
  apply bind_Ret in Hrun as (c8 & w8 & H8 & Hrun).
  apply wrapErr_Ret, SetConfigItem_Ret in H8 as (_ & -> & ->).
  apply bind_Ret in Hrun as (c9 & w9 & H9 & Hrun).
  apply wrapErr_Ret, SetConfigItem_Ret in H9 as (_ & -> & ->).
  apply bind_Ret in Hrun as ([] & w10 & H10 & Hrun).
  injection Hrun as <- <-.
  apply wrapErr_Ret, attempt_Ret in H10 as (_ & H10).
  apply writeWhole_Ret in H10 as ((p & ->) & Hnofifo).
  exists c1', p. split; [done |].
  rewrite !withItems_withItems in *. simpl lxc.Name.
  rewrite !add_traces_add_traces.
  split; [done |]. split; [| exact Hnofifo].
  unfold add_trace, set_fs, add_traces, setOps, configLines. simpl.
  f_equal. rewrite !map_app. simpl. rewrite <- ?app_assoc. simpl.
  repeat (rewrite <- ?app_assoc; simpl; f_equal).
Qed.

Lemma mkdirs_None paths perm : ∀ fs fs' p,
  os.mkdirs paths perm fs = Some fs' →
  os.lookupNode fs' p = None → os.lookupNode fs p = None.
Proof.
  induction paths as [|q paths IH]; intros fs fs' p Hmk Hnone; simpl in Hmk.
  { by simplify_eq. }
  destruct (os.lookupNode fs q) as [[| |]|] eqn:Hq; try discriminate Hmk.
  - eauto.
  - specialize (IH _ _ p Hmk Hnone).
    destruct (decide (q = p)) as [-> | Hne].
    + unfold os.lookupNode in IH, Hq |- *. repeat case_decide; done.
    + by rewrite lookupNode_insert_ne in IH.
Qed.

Lemma MkdirAll_Ret path perm w w' :
  os.MkdirAll path perm w = (Ret tt, w') →
  ∃ fs', w' = set_fs (λ _, fs') (add_trace (OpMkdirAll path perm) w)
         ∧ ∀ p, os.lookupNode fs' p = None → os.lookupNode (w_fs w) p = None.
Proof.
  intros Hrun. apply attempt_Ret in Hrun as (_ & Hrun). simpl in Hrun.
  destruct (os.mkdirs _ _ _) as [fs'|] eqn:Hmk; [| discriminate Hrun].
  injection Hrun as <-. exists fs'. split; [done |].
  intros p. by eapply mkdirs_None.
Qed.

Lemma makeSyncFifo_Ret dir w w' :
  let fifoFilename := filepath.Join [dir; "syncfifo"] in
  makeSyncFifo dir w = (Ret tt, w') →
  os.lookupNode (w_fs w) fifoFilename = None
  ∧ w' = set_fs (<[fifoFilename := NFifo 402 []]>)
           (add_traces [OpUmask 0; OpMkfifo fifoFilename 402; OpUmask (w_umask w)] w).
Proof.
  intros fifo Hrun. unfold makeSyncFifo in Hrun. fold fifo in Hrun.
  apply bind_Ret in Hrun as (prev & w1 & H1 & Hrun).
  unfold unix.Umask in H1. injection H1 as <- <-.
  apply defer_Ret in Hrun as (w2 & Hrun & ->).
  apply wrapErr_Ret, attempt_Ret in Hrun as (_ & Hrun). simpl in Hrun.
  destruct (os.lookupNode (w_fs w) fifo) as [n|] eqn:Hn; [discriminate Hrun |].
  destruct (os.isDir _ _); [| discriminate Hrun].
  injection Hrun as <-. split; [done |].
  destruct w. unfold unix.Umask, set_fs, set_umask, add_trace, add_traces. simpl.
  f_equal. by rewrite <- !app_assoc.
Qed.

Lemma startContainer_Ret c spec w w' :
  let name := lxc.Name c in
  let argv := [w_self_exe w; "internal"; name; specs.Path (specs.Root_ spec);
               filepath.Join ["/var/lib/lxc"; name; "config"]] in
  let inherit := negb (specs.Terminal (specs.Process_ spec)) in
  startContainer c spec w = (Ret tt, w') →
  ∃ p text perm writers,
    os.lookupNode (w_fs w) (filepath.Join ["/var/lib/lxc"; name; "config"])
      = Some (NFile p text)
    ∧ os.lookupNode (w_fs w) (hookFifo name) = Some (NFifo perm writers)
    ∧ w' = set_engine (<[name := mkRecord (lxc.parseConfig text) BlockedAtBarrier]>)
             (set_fs (<[hookFifo name := NFifo perm (writers ++ [(name, hookToken)])]>)
                (add_traces [OpReadlink "/proc/self/exe"; OpRun argv inherit] w)).
Proof.
  intros name argv inherit Hrun. unfold startContainer in Hrun.
  apply bind_Ret in Hrun as (binary & w1 & H1 & Hrun).
  apply attempt_Ret in H1 as (_ & H1). injection H1 as <- <-.
  apply attempt_Ret in Hrun as (_ & Hrun).
  simpl in Hrun. unfold internalCmd in Hrun. simpl in Hrun. fold name in Hrun.
  destruct (os.lookupNode (w_fs w) (filepath.Join ["/var/lib/lxc"; name; "config"]))
    as [[|p text|]|] eqn:Hcfg; try discriminate Hrun.
  destruct (os.lookupNode (w_fs w) (hookFifo name)) as [[| |perm writers]|] eqn:Hfifo;
    try discriminate Hrun.
  injection Hrun as <-. exists p, text, perm, writers.
  split; [done |]. split; [done |].
  unfold set_engine, set_fs, add_trace, add_traces. simpl. f_equal.
  by rewrite <- !app_assoc.
Qed.

Lemma lookupNode_None fs p :
  os.lookupNode fs p = None → fs !! p = None ∧ p ≠ "/" ∧ p ≠ ".".
Proof. unfold os.lookupNode. repeat case_decide; try discriminate. auto. Qed.

Lemma lookupNode_insert_None fs p q n :
  os.lookupNode (<[q := n]> fs) p = None → q ≠ p ∧ os.lookupNode fs p = None.
Proof.
  intros Hnone. destruct (decide (q = p)) as [-> | Hne].
  - apply lookupNode_None in Hnone as (Hnone & _). by rewrite lookup_insert_eq in Hnone.
  - by rewrite lookupNode_insert_ne in Hnone.
Qed.

(** What a create that returns has done. *)
Lemma doCreate_Ret ctx w w' :
  let containerID := cli.Args_Get ctx 0 in
  let dir := filepath.Join [LXC_PATH; containerID] in
  let hook := filepath.Join [LXC_PATH; containerID; "sync-fifo-wait"] in
  let fifo := filepath.Join [dir; "syncfifo"] in
  doCreate ctx w = (Ret tt, w') →
  ∃ spec saved fs2 text perm writers,
    containerID ≠ "" ∧ w_engine w !! containerID = None
    ∧ w_fault w (OpContainerExists containerID) = false
    ∧ os.lookupNode (w_fs w) fifo = None
    ∧ os.lookupNode fs2 fifo = Some (NFifo 402 [])
    ∧ os.lookupNode fs2 (hookFifo containerID) = Some (NFifo perm writers)
    ∧ w_fs w' = <[hookFifo containerID :=
                   NFifo perm (writers ++ [(containerID, hookToken)])]> fs2
    ∧ w_engine w' =
        <[containerID := mkRecord (lxc.parseConfig text) BlockedAtBarrier]> (w_engine w)
    ∧ w_trace w' = w_trace w ++
        [OpContainerExists containerID; OpNewContainer containerID LXC_PATH;
         OpMkdirAll dir 504; OpWriteFile hook 511;
         OpSetConfigItem containerID "lxc.hook.start-host" hook;
         OpUmask 0; OpMkfifo fifo 402; OpUmask (w_umask w)]
        ++ setOps containerID (configLines spec)
        ++ [OpSaveConfigFile containerID saved; OpReadlink "/proc/self/exe";
            OpRun [w_self_exe w; "internal"; containerID; specs.Path (specs.Root_ spec);
                   filepath.Join ["/var/lib/lxc"; containerID; "config"]]
                  (negb (specs.Terminal (specs.Process_ spec)));
            OpRelease containerID]
    ∧ w_fault w' = w_fault w ∧ w_umask w' = w_umask w ∧ w_stdout w' = w_stdout w.
Proof.
  intros id dir hook fifo Hrun. unfold doCreate in Hrun.
  fold id in Hrun. fold dir in Hrun. fold hook in Hrun.
  apply bind_Ret in Hrun as (a0 & w0 & H0 & Hrun).
  destruct (decide (String.length id = 0)) as [|Hlen]; [discriminate H0 |].
  injection H0 as <- <-.
  apply bind_Ret in Hrun as (a1 & w1 & H1 & Hrun). injection H1 as <- <-.
  apply bind_Ret in Hrun as (exists_ & w2 & H2 & Hrun).
  apply wrapErr_Ret, attempt_Ret in H2 as (Hf2 & H2). injection H2 as <- <-.
  simpl in Hf2, Hrun.
  destruct (w_engine w !! id) as [r|] eqn:Hrec; [discriminate Hrun |].
  rewrite bool_decide_eq_false_2 in Hrun by (by intros [? ?]).
  apply bind_Ret in Hrun as (c & w3 & H3 & Hrun).
  apply wrapErr_Ret, NewContainer_Ret in H3 as (_ & -> & ->).
  apply defer_Ret in Hrun as (w4 & Hrun & ->).
  apply bind_Ret in Hrun as (spec & w5 & H5 & Hrun).
  apply wrapErr_Ret in H5. simpl in H5.
  destruct (readBundleSpec _ _) as [err|spec'] eqn:Hspec; [discriminate H5 |].
  injection H5 as <- <-.
  apply bind_Ret in Hrun as ([] & w6 & H6 & Hrun).
  apply wrapErr_Ret, MkdirAll_Ret in H6 as (fs0 & -> & Hmk).
  apply bind_Ret in Hrun as ([] & w7 & H7 & Hrun).
  apply wrapErr_Ret, attempt_Ret in H7 as (_ & H7).
  apply writeWhole_Ret in H7 as ((p7 & ->) & _).
  apply bind_Ret in Hrun as (c8 & w8 & H8 & Hrun).
  apply wrapErr_Ret, SetConfigItem_Ret in H8 as (_ & -> & ->).
  apply bind_Ret in Hrun as ([] & w9 & H9 & Hrun).
  apply wrapErr_Ret, makeSyncFifo_Ret in H9 as (Hnone & ->). fold dir fifo in Hnone |- *.
  apply bind_Ret in Hrun as (c10 & w10 & H10 & Hrun).
  apply wrapErr_Ret, configureContainer_Ret in H10 as (c1 & p10 & Hlog & -> & -> & Hnofifo).
  apply bind_Ret in Hrun as ([] & w11 & H11 & Hrun). injection H11 as <-.
  apply bind_Ret in Hrun as ([] & w12 & H12 & Hrun).
  apply wrapErr_Ret, startContainer_Ret in H12 as (p12 & text & perm & writers & _ & Hfifo & ->).
  apply bind_Ret in Hrun as ([] & w13 & H13 & Hrun). injection H13 as <-.
  injection Hrun as <-.
  assert (lxc.Name c1 = id) as Hname.
  { match type of Hlog with
    | configureLogging ?x ?y = _ => pose proof (configureLogging_Name x y) as HN
    end.
    rewrite Hlog in HN. simpl in HN. rewrite HN. by destruct (cli.debug ctx). }
  simpl in Hnone, Hfifo, Hnofifo |- *. rewrite Hname in *.
  set (saved := savedConfigFile (withItems c1 (configLines spec'))) in *.
  apply lookupNode_insert_None in Hnone as (Hhook & Hnone).
  pose proof (lookupNode_None _ _ Hnone) as (_ & Hs1 & Hs2).
  assert (saved ≠ fifo) as Hsaved.
  { intros Heq. apply (Hnofifo 402%N []). rewrite Heq. by apply lookupNode_insert. }
  eexists spec', saved, _, text, perm, writers.
  split; [by rewrite <- length_zero_empty |].
  split; [done |]. split; [done |].
  split; [by apply Hmk |].
  split; [| split; [exact Hfifo |]].
  { rewrite lookupNode_insert_ne by done. by apply lookupNode_insert. }
  split; [done |]. split; [done |].
  split; [| done].
  rewrite <- !app_assoc. simpl. f_equal. rewrite <- !app_assoc. simpl. done.
Qed.

Lemma setOps_not_run name lines : Forall (λ o, isRun o = false) (setOps name lines).
Proof. unfold setOps. apply Forall_map, Forall_forall. done. Qed.


(** C2: in a create that succeeds the sync pipe is made on disk before the
    engine is told to launch anything.  The pipe was not there when the call
    began and is there when it ends; the trace of the call has the [mkfifo]
    of the pipe, later the one command the call runs (the launch), and no
    other launch before, between or after them. *)
Theorem doCreate_fifo_before_launch ctx w w' :
  let containerID := cli.Args_Get ctx 0 in
  let fifo := filepath.Join [filepath.Join [LXC_PATH; containerID]; "syncfifo"] in
  doCreate ctx w = (Ret tt, w') →
  os.lookupNode (w_fs w) fifo = None
  ∧ isFifo (os.lookupNode (w_fs w') fifo) = true
  ∧ ∃ pre mid post binary rootfs config inherit,
      w_trace w' = w_trace w ++ pre ++ [OpMkfifo fifo 402] ++ mid
                     ++ [OpRun [binary; "internal"; containerID; rootfs; config] inherit]
                     ++ post
      ∧ Forall (λ o, isRun o = false) (pre ++ mid ++ post).
Proof.
  intros id fifo Hrun.
  destruct (doCreate_Ret ctx w w' Hrun)
    as (spec & saved & fs2 & text & perm & writers & _ & _ & _ & Hnone & Hfifo & Hhook
        & Hfs & _ & Htrace & _).
  fold id in Hnone, Hfifo, Hhook, Hfs, Htrace. fold fifo in Hnone, Hfifo, Htrace.
  split; [exact Hnone |]. split.
  { rewrite Hfs. destruct (decide (hookFifo id = fifo)) as [Heq | Hne].
    - rewrite Heq. apply lookupNode_None in Hnone as (_ & ? & ?).
      by rewrite lookupNode_insert.
    - rewrite lookupNode_insert_ne by done. by rewrite Hfifo. }
  eexists [_; _; _; _; _; _], (_ :: setOps id (configLines spec) ++ [_; _]), [_], _, _, _, _.
  split.
  { rewrite Htrace. simpl. rewrite <- !app_assoc. simpl. reflexivity. }
  repeat first [apply Forall_cons; split; [done |] | apply Forall_app; split
               | apply setOps_not_run | apply Forall_nil_2 ].
Qed.


(** C4: create is not idempotent.  For an identity that resolves to a record
    of the engine, whatever the state of its init, create fails with
    [AlreadyExists] and changes nothing on disk or in the engine: all it did
    was to look the identity up.  This is so in particular right after a
    create of that identity that succeeded, the container never started. *)
Theorem doCreate_not_idempotent ctx w :
  let containerID := cli.Args_Get ctx 0 in
  let rejected :=
    ∃ w2, doCreate ctx w =
            (Fail (mkError AlreadyExists
                     ("container '" +:+ containerID +:+ "' already exists")), w2)
          ∧ w_fs w2 = w_fs w ∧ w_engine w2 = w_engine w ∧ w_umask w2 = w_umask w
          ∧ w_stdout w2 = w_stdout w
          ∧ w_trace w2 = w_trace w ++ [OpContainerExists containerID] in
  containerID ≠ "" →
  (∀ r, w_engine w !! containerID = Some r →
        w_fault w (OpContainerExists containerID) = false → rejected)
  ∧ (∀ ctx0 w0, cli.Args_Get ctx0 0 = containerID →
                doCreate ctx0 w0 = (Ret tt, w) → rejected).
Proof.
  intros id rejected Hid.
  assert (∀ r, w_engine w !! id = Some r → w_fault w (OpContainerExists id) = false →
            rejected) as Hrej.
  { intros r Hr Hf. eexists. split; [by eapply doCreate_exists |]. done. }
  split; [exact Hrej |].
  intros ctx0 w0 Hctx Hrun.
  destruct (doCreate_Ret ctx0 w0 w Hrun)
    as (spec & saved & fs2 & text & perm & writers & _ & _ & Hf & _ & _ & _
        & _ & Heng & _ & Hfault & _).
  rewrite Hctx in Heng, Hf. eapply Hrej.
  - rewrite Heng. apply lookup_insert_eq.
  - by rewrite Hfault.
Qed.

(** *** State *)





End CommandProperties.

(** ** The commands on the example deployment *)

(** C5: a start on an identity that was never created does not fail with
    [NotFound].  On the empty world, [start ghost] loads a handle as create
    does, finds the container not running, and fails because the sync fifo is
    missing: the error is of the kind [BarrierMissing].  [doState] on the same
    input answers [NotFound]. *)
Theorem doStart_unknown_identity :
  fst (@doStart Example.deployment (Example.ctx "ghost") Example.empty)
    = Fail (mkError BarrierMissing "sync fifo '/var/lib/lxc/ghost/syncfifo' not found.")
  ∧ fst (@doState Example.deployment (Example.ctx "ghost") Example.empty)
    = Fail (mkError NotFound "container 'ghost' not found").
Proof. split; vm_compute; reflexivity. Qed.

(** C8: the state document is passed to [fmt.Fprintf] as the format.  For a
    container made from a bundle in [/srv/50%], the percent sign before the
    closing quote of the bundle member is read as a directive without
    operand whose verb is the quote, and what is printed is not the document
    and not JSON: the quote is printed inside the notice of the missing
    operand, which is no end of the string of the bundle member. *)
Theorem doState_percent_not_json :
  let w := Example.percentCreated in
  let run := @doState Example.percentDeployment (cli.mkContext ["c1"] "" false) w in
  let document := json.Marshal (@stateOf Example.percentDeployment "c1" false
                                  "/srv/50%/rootfs") in
  fst run = Ret tt
  ∧ w_stdout (snd run) =
      "{" +:+ json.member "version" (GoStrings.quoted "0.2.1")
      +:+ "," +:+ json.member "id" (GoStrings.quoted "c1")
      +:+ "," +:+ json.member "status" (GoStrings.quoted "stopped")
      +:+ "," +:+ json.member "pid" "0"
      +:+ "," +:+ GoStrings.quoted "bundle" +:+ ":"
      +:+ String GoStrings.dquote "/srv/50%!" +:+ String GoStrings.dquote "(MISSING)"
      +:+ "," +:+ json.member "annotations" "{}" +:+ "}"
  ∧ w_stdout (snd run) ≠ document.
Proof. vm_compute. repeat split; done. Qed.

(** ** Joined and split strings *)

Section StringFacts.
Import GoStrings.

Lemma sapp_cons c a b : String c a +:+ b = String c (a +:+ b).
Proof. reflexivity. Qed.

Lemma sapp_nil_l b : "" +:+ b = b.
Proof. reflexivity. Qed.

Lemma sapp_nil_r a : a +:+ "" = a.
Proof. induction a as [|c a IH]; [done |]. by rewrite sapp_cons, IH. Qed.

Lemma sapp_assoc a b c : (a +:+ b) +:+ c = a +:+ b +:+ c.
Proof. induction a as [|x a IH]; [done |]. by rewrite !sapp_cons, IH. Qed.

Lemma contains_app c a b : contains c (a +:+ b) = contains c a || contains c b.
Proof.
  induction a as [|x a IH]; [done |].
  rewrite sapp_cons. simpl. by rewrite IH, orb_assoc.
Qed.

Lemma free_app c a b : Recover.free c (a +:+ b) = Recover.free c a && Recover.free c b.
Proof. unfold Recover.free. by rewrite contains_app, negb_orb. Qed.

Lemma Split_cons_free c a sep :
  Ascii.eqb c sep = false →
  Split (String c a) sep = match Split a sep with
                           | [] => [String c ""]
                           | h :: t => String c h :: t
                           end.
Proof. intros Hc. simpl. by rewrite Hc. Qed.

(** Splitting at a separator that follows a part free of it. *)
Lemma Split_app a b sep :
  contains sep a = false → Split (a +:+ String sep b) sep = a :: Split b sep.
Proof.
  induction a as [|c a IH]; intros Hfree.
  - rewrite sapp_nil_l. simpl. by rewrite Ascii.eqb_refl.
  - simpl in Hfree. apply orb_false_iff in Hfree as (Hc & Hfree).
    rewrite sapp_cons, Split_cons_free by done. by rewrite IH.
Qed.

Lemma Split_free a sep : contains sep a = false → Split a sep = [a].
Proof.
  induction a as [|c a IH]; intros Hfree; [done |].
  simpl in Hfree. apply orb_false_iff in Hfree as (Hc & Hfree).
  rewrite Split_cons_free by done. by rewrite IH.
Qed.

Lemma cut_app c a b :
  contains c a = false → cut c (a +:+ String c b) = (a, Some b).
Proof.
  induction a as [|x a IH]; intros Hfree.
  - rewrite sapp_nil_l. simpl. by rewrite Ascii.eqb_refl.
  - simpl in Hfree. apply orb_false_iff in Hfree as (Hx & Hfree).
    rewrite sapp_cons. simpl. rewrite Hx, IH by done. done.
Qed.

Lemma Join_cons e e' rest sep :
  Join (e :: e' :: rest) sep = e +:+ sep +:+ Join (e' :: rest) sep.
Proof. reflexivity. Qed.

(** A joined list is split into its elements again when no element holds the
    separator and there is an element. *)
Lemma Split_Join l sep :
  forallb (Recover.free sep) l = true → l ≠ [] →
  Split (Join l (String sep "")) sep = l.
Proof.
  induction l as [|e [|e' rest] IH]; intros Hfree Hne; [done | |].
  - simpl in Hfree. apply andb_true_iff in Hfree as (He & _).
    apply negb_true_iff in He. by apply Split_free.
  - rewrite Join_cons, sapp_cons, sapp_nil_l.
    change (forallb (Recover.free sep) (e :: e' :: rest))
      with (Recover.free sep e && forallb (Recover.free sep) (e' :: rest)) in Hfree.
    apply andb_true_iff in Hfree as (He & Hfree). apply negb_true_iff in He.
    rewrite Split_app by done. by rewrite IH.
Qed.

Lemma Join_empty l sep :
  Join l (String sep "") = "" → l = [] ∨ l = [""].
Proof.
  destruct l as [|e [|e' rest]]; [auto | simpl; intros ->; auto |].
  rewrite Join_cons. destruct e; [| discriminate]. rewrite sapp_nil_l, sapp_cons.
  discriminate.
Qed.

Lemma unjoin_Join l sep :
  Recover.joinable sep l = true →
  Recover.unjoin (Join l (String sep "")) sep = l.
Proof.
  unfold Recover.joinable, Recover.unjoin. intros Hok.
  apply andb_true_iff in Hok as (Hfree & Hne).
  apply negb_true_iff, bool_decide_eq_false in Hne.
  case_decide as Hempty.
  - by destruct (Join_empty l sep Hempty) as [-> | ->].
  - apply Split_Join; [done |]. by intros ->.
Qed.

Lemma contains_Join c l sep :
  forallb (Recover.free c) l = true → contains c sep = false →
  contains c (Join l sep) = false.
Proof.
  intros Hfree Hsep. induction l as [|e [|e' rest] IH]; [done | |].
  - simpl in Hfree. apply andb_true_iff in Hfree as (He & _). by apply negb_true_iff.
  - change (forallb (Recover.free c) (e :: e' :: rest))
      with (Recover.free c e && forallb (Recover.free c) (e' :: rest)) in Hfree.
    apply andb_true_iff in Hfree as (He & Hfree). apply negb_true_iff in He.
    rewrite Join_cons, !contains_app, He, Hsep, IH by done. done.
Qed.

(** *** The text of a configuration *)

Lemma renderConfig_cons kv rest :
  lxc.renderConfig (kv :: rest) = lxc.renderLine kv +:+ lxc.renderConfig rest.
Proof.
  unfold lxc.renderConfig. destruct rest as [|kv' rest]; simpl.
  - by rewrite sapp_nil_r.
  - by rewrite sapp_nil_l.
Qed.

Lemma parseLine_render k v :
  contains space k = false → lxc.parseLine (k +:+ " = " +:+ v) = Some (k, v).
Proof.
  intros Hk. unfold lxc.parseLine.
  change (k +:+ " = " +:+ v) with (k +:+ String space ("= " +:+ v)).
  rewrite cut_app by done. reflexivity.
Qed.

Lemma parseConfig_render items :
  forallb Recover.lineOK items = true →
  lxc.parseConfig (lxc.renderConfig items) = items.
Proof.
  induction items as [|[k v] items IH]; intros Hok; [done |].
  simpl in Hok. apply andb_true_iff in Hok as (Hkv & Hok).
  unfold Recover.lineOK in Hkv. simpl in Hkv.
  apply andb_true_iff in Hkv as (Hkv & Hv). apply andb_true_iff in Hkv as (Hks & Hkn).
  apply negb_true_iff in Hks, Hkn, Hv.
  rewrite renderConfig_cons. unfold lxc.renderLine, lxc.parseConfig. simpl fst. simpl snd.
  replace ((k +:+ " = " +:+ v +:+ nl) +:+ lxc.renderConfig items)
    with ((k +:+ " = " +:+ v) +:+ String newline (lxc.renderConfig items)).
  2: { rewrite !sapp_assoc. reflexivity. }
  rewrite Split_app.
  2: { rewrite !contains_app, Hkn, Hv. reflexivity. }
  simpl. rewrite parseLine_render by done. f_equal. by apply IH.
Qed.

End StringFacts.

(** ** The configurer *)

Section ConfigurerProperties.
Context `{Externals}.
Import GoStrings.

Lemma mountEntry_newline ms :
  Recover.mountOK ms = true → contains newline (mountEntry ms) = false.
Proof.
  unfold Recover.mountOK, mountEntry. intros Hok.
  repeat (apply andb_true_iff in Hok as (Hok & ?)).
  rewrite !contains_app.
  rewrite contains_Join by done.
  repeat match goal with
         | Hf : Recover.free _ _ = true |- _ => apply negb_true_iff in Hf; rewrite ?Hf
         end.
  reflexivity.
Qed.

Lemma parseMount_mountEntry ms :
  Recover.mountOK ms = true → Recover.parseMount (mountEntry ms) = Some ms.
Proof.
  unfold Recover.mountOK, mountEntry. intros Hok.
  repeat (apply andb_true_iff in Hok as (Hok & ?)).
  repeat match goal with
         | Hf : Recover.free _ _ = true |- _ => apply negb_true_iff in Hf
         end.
  unfold Recover.parseMount.
  rewrite !(sapp_cons " "%char ""), !sapp_nil_l.
  rewrite cut_app by done. rewrite cut_app by done. rewrite cut_app by done.
  change "," with (String comma ""). rewrite unjoin_Join by done.
  by destruct ms.
Qed.

Lemma configLines_lineOK spec :
  Recover.recoverable spec = true → forallb Recover.lineOK (configLines spec) = true.
Proof.
  unfold Recover.recoverable. intros Hok.
  repeat (apply andb_true_iff in Hok as (Hok & ?)).
  unfold configLines. rewrite !forallb_app. simpl.
  repeat (apply andb_true_iff; split); try done.
  - rewrite forallb_forall. intros kv (e & <- & Hin)%in_map_iff.
    unfold Recover.lineOK. simpl.
    eapply forallb_forall in Hin; [| eassumption]. by rewrite Hin.
  - rewrite forallb_forall. intros kv (ms & <- & Hin)%in_map_iff.
    unfold Recover.lineOK. simpl.
    eapply forallb_forall in Hin; [| eassumption].
    unfold Recover.free. by rewrite mountEntry_newline.
  - simpl. unfold Recover.free. by rewrite contains_Join.
Qed.

(** The lines of a key among the lines of a bundle spec. *)
Lemma lines_same {A} key (f : A → string) l :
  filter (λ kv : string * string, fst kv = key) (map (λ x, (key, f x)) l)
  = map (λ x, (key, f x)) l.
Proof.
  induction l as [|x l IH]; [done |]. simpl.
  rewrite filter_cons_True by done. by rewrite IH.
Qed.

Lemma lines_other {A} key key' (f : A → string) l :
  key' ≠ key →
  filter (λ kv : string * string, fst kv = key) (map (λ x, (key', f x)) l) = [].
Proof.
  intros Hne. induction l as [|x l IH]; [done |]. simpl.
  by rewrite filter_cons_False.
Qed.

Lemma lines_foreign key items :
  forallb Recover.foreign items = true →
  key = "lxc.environment" ∨ key = "lxc.mount.entry" ∨ key = "lxc.execute.cmd" →
  filter (λ kv : string * string, fst kv = key) items = [].
Proof.
  intros Hok Hkey. induction items as [|kv items IH]; [done |].
  simpl in Hok. apply andb_true_iff in Hok as (Hkv & Hok).
  rewrite filter_cons_False; [by apply IH |].
  unfold Recover.foreign in Hkv.
  repeat (apply andb_true_iff in Hkv as (Hkv & ?)).
  repeat match goal with
         | Hf : negb (bool_decide _) = true |- _ =>
             apply negb_true_iff, bool_decide_eq_false in Hf
         end.
  intros Heq. destruct Hkey as [-> | [-> | ->]]; congruence.
Qed.

Ltac pick_lines :=
  unfold configLines;
  repeat first
    [ rewrite filter_app | rewrite filter_nil
    | rewrite lines_same
    | rewrite (lines_other _ _ (λ x, x)) by done
    | rewrite lines_other by done
    | rewrite filter_cons_True by done
    | rewrite filter_cons_False by done ].

Lemma configLines_environment spec :
  filter (λ kv : string * string, fst kv = "lxc.environment") (configLines spec)
  = map (pair "lxc.environment") (specs.Env (specs.Process_ spec)).
Proof.
  unfold configLines.
  change (pair "lxc.environment") with (λ x : string, ("lxc.environment", (λ y, y) x)).
  pick_lines. by rewrite app_nil_r.
Qed.

Lemma configLines_mounts spec :
  filter (λ kv : string * string, fst kv = "lxc.mount.entry") (configLines spec)
  = map (λ ms, ("lxc.mount.entry", mountEntry ms)) (specs.Mounts spec).
Proof.
  unfold configLines.
  change (pair "lxc.environment") with (λ x : string, ("lxc.environment", (λ y, y) x)).
  pick_lines. by rewrite app_nil_r.
Qed.

Lemma configLines_arguments spec :
  filter (λ kv : string * string, fst kv = "lxc.execute.cmd") (configLines spec)
  = [("lxc.execute.cmd", GoStrings.Join (specs.Args (specs.Process_ spec)) " ")].
Proof.
  unfold configLines.
  change (pair "lxc.environment") with (λ x : string, ("lxc.environment", (λ y, y) x)).
  pick_lines. done.
Qed.

(** C7, as amended: for a bundle spec in which no value holds a newline, no
    argument and no source, destination or type of a mount holds a space, no
    mount option holds a comma, and neither the arguments nor the options of
    a mount are the list of one empty string, the environment list, the
    mount list (source, destination, type and options in order) and the
    arguments are read back from the configuration file that
    [configureContainer] saves.  The handle is one whose lines, after the
    logging configuration, can stand on a line each and set none of the three
    keys read back. *)
Theorem configureContainer_roundtrip ctx c spec w c' w' :
  let c0 := if cli.debug ctx then lxc.SetVerbosity c lxc.Verbose else c in
  Recover.recoverable spec = true →
  forallb (λ kv, Recover.lineOK kv && Recover.foreign kv)
          (lxc.items (snd (configureLogging ctx c0))) = true →
  configureContainer ctx c spec w = (Ret c', w') →
  ∃ perm text,
    w_fs w' !! savedConfigFile c' = Some (NFile perm text)
    ∧ Recover.environment text = specs.Env (specs.Process_ spec)
    ∧ Recover.mounts text = map Some (specs.Mounts spec)
    ∧ Recover.arguments text = Some (specs.Args (specs.Process_ spec)).
Proof.
  intros c0 Hspec Hitems Hrun.
  apply configureContainer_Ret in Hrun as (c1 & p & Hlog & Hc' & -> & _).
  fold c0 in Hlog. rewrite Hlog in Hitems. simpl in Hitems.
  assert (forallb Recover.lineOK (lxc.items c1) = true
          ∧ forallb Recover.foreign (lxc.items c1) = true) as (Hline & Hforeign).
  { clear -Hitems. induction (lxc.items c1) as [|kv l IH]; [done |].
    simpl in Hitems |- *.
    apply andb_true_iff in Hitems as (Hkv & Hl). apply andb_true_iff in Hkv as (-> & ->).
    destruct (IH Hl) as (-> & ->). done. }
  exists p, (lxc.renderConfig (lxc.items c')). split.
  { simpl. apply lookup_insert_eq. }
  assert (lxc.parseConfig (lxc.renderConfig (lxc.items c'))
          = lxc.items c1 ++ configLines spec) as Hparse.
  { rewrite Hc'. simpl. apply parseConfig_render.
    rewrite forallb_app, Hline. simpl. by apply configLines_lineOK. }
  unfold Recover.environment, Recover.mounts, Recover.arguments, Recover.valuesOf.
  rewrite Hparse, !filter_app.
  rewrite (lines_foreign "lxc.environment"), (lines_foreign "lxc.mount.entry"),
    (lines_foreign "lxc.execute.cmd") by auto.
  simpl.
  rewrite configLines_environment, configLines_mounts, configLines_arguments.
  split; [| split].
  - rewrite map_map. simpl. apply map_id.
  - rewrite !map_map. simpl. apply map_ext_in. intros ms Hin.
    apply parseMount_mountEntry.
    unfold Recover.recoverable in Hspec.
    repeat (apply andb_true_iff in Hspec as (Hspec & ?)).
    eapply forallb_forall; eassumption.
  - simpl. f_equal. change " " with (String space ""). apply unjoin_Join.
    unfold Recover.recoverable in Hspec.
    repeat (apply andb_true_iff in Hspec as (Hspec & ?)). done.
Qed.

End ConfigurerProperties.

(** C7, as stated, fails: two bundle specs whose arguments differ, one with
    a space inside an argument, are saved as the same configuration file, so
    that no function reads the arguments of every bundle spec back from the
    file saved for it. *)
Lemma configureContainer_loses_arguments :
  let run spec :=
    @configureContainer Example.deployment (Example.ctx "c1") Example.handle spec
      Example.prepared in
  ¬ ∃ recover : string → list string,
      ∀ spec c w perm text,
        run spec = (Ret c, w) →
        w_fs w !! @savedConfigFile Example.deployment c = Some (NFile perm text) →
        recover text = specs.Args (specs.Process_ spec).
Proof.
  intros run (recover & Hrec).
  destruct (run (Example.withArgs ["sh"; "-c"; "echo hi"])) as [oA wA] eqn:HA.
  destruct (run (Example.withArgs ["sh"; "-c"; "echo"; "hi"])) as [oB wB] eqn:HB.
  assert ((oA, wA) = (oB, wB)) as Hsame.
  { rewrite <- HA, <- HB. vm_compute. reflexivity. }
  injection Hsame as <- <-.
  destruct oA as [c| | | |]; try (vm_compute in HA; discriminate HA).
  destruct (w_fs wA !! @savedConfigFile Example.deployment c) as [[|perm text|]|] eqn:Hfile;
    try (vm_compute in HA; injection HA as <- <-; vm_compute in Hfile; discriminate Hfile).
  pose proof (Hrec _ _ _ _ _ HA Hfile) as H1.
  pose proof (Hrec _ _ _ _ _ HB Hfile) as H2.
  rewrite H1 in H2. discriminate H2.
Qed.

(** ** The theorems on the example deployment *)

(** The start of [c1] after its create: the pipe is drained. *)
Lemma doStart_drains_pipe_witness :
  ∃ perm writers,
    os.lookupNode (w_fs Example.created) "/var/lib/lxc/c1/syncfifo"
      = Some (NFifo perm writers)
    ∧ writers ≠ []
    ∧ w_trace Example.started = w_trace Example.created ++
        [OpNewContainer "c1" "/var/lib/lxc"; OpStat "/var/lib/lxc/c1/syncfifo";
         OpOpenFile "/var/lib/lxc/c1/syncfifo" os.O_RDONLY 0;
         OpReadAll "/var/lib/lxc/c1/syncfifo"; OpRelease "c1"]
    ∧ last (w_log Example.started) =
        Some ("read '%s' from fifo, done", [VString (String.concat "" (map snd writers))])
    ∧ os.lookupNode (w_fs Example.started) "/var/lib/lxc/c1/syncfifo"
      = Some (NFifo perm []).
Proof.
  apply (@doStart_drains_pipe Example.deployment (Example.ctx "c1")
           Example.created Example.started).
  - vm_compute. reflexivity.
  - intros r Hr. vm_compute in Hr. injection Hr as <-. discriminate.
  - vm_compute. reflexivity.
Defined.

(** The create of [c1] on the empty world: the pipe is made before the launch. *)
Lemma doCreate_fifo_before_launch_witness :
  os.lookupNode (w_fs Example.empty) "/var/lib/lxc/c1/syncfifo" = None
  ∧ isFifo (os.lookupNode (w_fs Example.created) "/var/lib/lxc/c1/syncfifo") = true
  ∧ ∃ pre mid post binary rootfs config inherit,
      w_trace Example.created = w_trace Example.empty ++ pre
                     ++ [OpMkfifo "/var/lib/lxc/c1/syncfifo" 402] ++ mid
                     ++ [OpRun [binary; "internal"; "c1"; rootfs; config] inherit]
                     ++ post
      ∧ Forall (λ o, isRun o = false) (pre ++ mid ++ post).
Proof.
  apply (@doCreate_fifo_before_launch Example.deployment (Example.ctx "c1")
           Example.empty Example.created).
  vm_compute. reflexivity.
Defined.


(** A second create of [c1] is rejected. *)
Lemma doCreate_not_idempotent_witness :
  ∃ w2, @doCreate Example.deployment (Example.ctx "c1") Example.created =
          (Fail (mkError AlreadyExists "container 'c1' already exists"), w2)
        ∧ w_fs w2 = w_fs Example.created ∧ w_engine w2 = w_engine Example.created
        ∧ w_umask w2 = w_umask Example.created
        ∧ w_stdout w2 = w_stdout Example.created
        ∧ w_trace w2 = w_trace Example.created ++ [OpContainerExists "c1"].
Proof.
  assert ("c1" ≠ "") as Hid by discriminate.
  apply (proj2 (@doCreate_not_idempotent Example.deployment (Example.ctx "c1")
                  Example.created Hid) (Example.ctx "c1") Example.empty).
  - reflexivity.
  - vm_compute. reflexivity.
Defined.

(** A second start of [c1] is rejected. *)
Lemma doStart_running_rejected_witness :
  ∃ w2, @doStart Example.deployment (Example.ctx "c1") Example.started =
          (Fail (mkError AlreadyRunning "'c1' is already running"), w2)
        ∧ w_fs w2 = w_fs Example.started ∧ w_engine w2 = w_engine Example.started
        ∧ w_trace w2 = w_trace Example.started ++
            [OpNewContainer "c1" "/var/lib/lxc"; OpRelease "c1"].
Proof.
  assert ("c1" ≠ "") as Hid by discriminate.
  assert (w_fault Example.started (OpNewContainer "c1" "/var/lib/lxc") = false) as Hf
    by reflexivity.
  apply (proj1 (@doStart_running_rejected Example.deployment (Example.ctx "c1")
                  Example.started Hid Hf)
           (mkRecord (rec_config Example.record) RunningUser)).
  - vm_compute. reflexivity.
  - reflexivity.
Defined.

(** The bundle spec of the example is read back from its saved file. *)
Lemma configureContainer_roundtrip_witness :
  ∃ perm text,
    w_fs (snd Example.configured) !! "/var/lib/lxc/c1/config" = Some (NFile perm text)
    ∧ Recover.environment text = ["PATH=/bin"; "TERM=xterm"]
    ∧ Recover.mounts text = [Some (specs.mkMount "/proc" "proc" "proc" ["nosuid"; "noexec"])]
    ∧ Recover.arguments text = Some ["/bin/true"].
Proof.
  apply (@configureContainer_roundtrip Example.deployment (Example.ctx "c1")
           Example.handle Example.spec Example.prepared
           (fst Example.configured) (snd Example.configured)).
  - vm_compute. reflexivity.
  - vm_compute. reflexivity.
  - vm_compute. reflexivity.
Defined.


(** The start of [c1] leaves its pipe where it is. *)
Lemma doStart_keeps_pipe_witness :
  (∃ perm writers,
     os.lookupNode (w_fs Example.created) "/var/lib/lxc/c1/syncfifo"
       = Some (NFifo perm writers)
     ∧ os.lookupNode (w_fs Example.started) "/var/lib/lxc/c1/syncfifo"
       = Some (NFifo perm []))
  ∧ (∀ path, entry <$> (w_fs Example.started !! path)
             = entry <$> (w_fs Example.created !! path))
  ∧ ∀ o, o ∈ w_trace Example.started →
         o ∈ w_trace Example.created ∨ o = OpNewContainer "c1" "/var/lib/lxc"
         ∨ o = OpStat "/var/lib/lxc/c1/syncfifo"
         ∨ o = OpOpenFile "/var/lib/lxc/c1/syncfifo" os.O_RDONLY 0
         ∨ o = OpReadAll "/var/lib/lxc/c1/syncfifo" ∨ o = OpRelease "c1".
Proof.
  apply (@doStart_keeps_pipe Example.deployment (Example.ctx "c1")
           Example.created Example.started).
  - vm_compute. reflexivity.
  - vm_compute. reflexivity.
Defined.

(** * Further properties of the commands *)

(** ** What a computation keeps *)

Section Keeps.
Context (R : World → World → Prop) `{!Reflexive R, !Transitive R}.

Lemma keeps_ret {A} (a : A) : keeps R (ret a).
Proof. intros w o w' [= <- <-]. reflexivity. Qed.

Lemma keeps_fail {A} e : keeps R (@fail A e).
Proof. intros w o w' [= <- <-]. reflexivity. Qed.

Lemma keeps_get {A} (f : World → A) : keeps R (get f).
Proof. intros w o w' [= <- <-]. reflexivity. Qed.

Lemma keeps_effect f : (∀ w, R w (f w)) → keeps R (effect f).
Proof. intros Hf w o w' [= <- <-]. apply Hf. Qed.

Lemma keeps_bind {A B} (m : M A) (k : A → M B) :
  keeps R m → (∀ a, keeps R (k a)) → keeps R (bind m k).
Proof.
  intros Hm Hk w o w'. unfold bind.
  destruct (m w) as [[a|e|c|s|] w1] eqn:Hmw; specialize (Hm _ _ _ Hmw).
  - intros Hka. etransitivity; [exact Hm |]. eapply Hk, Hka.
  - by intros [= <- <-].
  - by intros [= <- <-].
  - by intros [= <- <-].
  - by intros [= <- <-].
Qed.

Lemma keeps_wrapErr {A} (m : M A) msg : keeps R m → keeps R (wrapErr m msg).
Proof.
  intros Hm w o w'. unfold wrapErr.
  destruct (m w) as [[a|e|c|s|] w1] eqn:Hmw; specialize (Hm _ _ _ Hmw);
    by intros [= <- <-].
Qed.

Lemma keeps_defer {A} cleanup (m : M A) :
  (∀ w, R w (cleanup w)) → keeps R m → keeps R (defer cleanup m).
Proof.
  intros Hc Hm w o w'. unfold defer.
  destruct (m w) as [[a|e|c|s|] w1] eqn:Hmw; specialize (Hm _ _ _ Hmw);
    intros [= <- <-]; try done; by (etransitivity; [exact Hm | apply Hc]).
Qed.

Lemma keeps_attempt {A} o kind what (run : M A) :
  (∀ w, R w (add_trace o w)) → keeps R run → keeps R (attempt o kind what run).
Proof.
  intros Ht Hrun w out w'. unfold attempt. destruct (w_fault w o).
  - intros [= <- <-]. apply Ht.
  - intros Hr. etransitivity; [apply Ht |]. eapply Hrun, Hr.
Qed.


End Keeps.

#[local] Instance untouched_refl : Reflexive untouched.
Proof. by intros w. Qed.

#[local] Instance untouched_trans : Transitive untouched.
Proof. intros a b c (? & ? & ?) (? & ? & ?). repeat split; congruence. Qed.

(** ** State, start and create on their edges *)

Section CommandFacts.
Context `{Externals}.
Import GoStrings.

Lemma keeps_exit {A} (R : World → World → Prop) `{!Reflexive R} command code :
  keeps R (@cli.ShowCommandHelpAndExit A command code).
Proof. intros w o w' [= <- <-]. reflexivity. Qed.

Lemma keeps_missingContainerID {A} (R : World → World → Prop)
    `{!Reflexive R, !Transitive R} command :
  (∀ s w, R w (add_stderr s w)) → keeps R (@missingContainerID A command).
Proof.
  intros Hs. unfold missingContainerID. apply (keeps_bind R).
  - apply (keeps_effect R). intros w. apply Hs.
  - intros _. by apply keeps_exit.
Qed.

Lemma keeps_logging (R : World → World → Prop) `{!Reflexive R}
    (r : option Error * lxc.Container) (k : Error → Error) :
  keeps R (match r with
           | (Some err, _) => fail (k err)
           | (None, c) => ret c
           end : M lxc.Container).
Proof. destruct r as [[err|] c]; [apply (keeps_fail R) | apply (keeps_ret R)]. Qed.

Lemma doState_keeps ctx : keeps untouched (doState ctx).
Proof.
  unfold doState.
  apply (keeps_bind untouched).
  { destruct (decide _); [by apply (keeps_missingContainerID untouched) | apply (keeps_ret untouched)]. }
  intros _. apply (keeps_bind untouched).
  { apply (keeps_wrapErr untouched), (keeps_attempt untouched); [done | apply (keeps_get untouched)]. }
  intros [|]; simpl; [| apply (keeps_fail untouched)].
  apply (keeps_bind untouched).
  { apply (keeps_wrapErr untouched), (keeps_attempt untouched); [done | apply (keeps_get untouched)]. }
  intros c. apply (keeps_defer untouched); [done |].
  apply (keeps_bind untouched); [apply (keeps_logging untouched) |].
  intros c1. apply (keeps_bind untouched); [apply (keeps_get untouched) |].
  intros running. apply (keeps_bind untouched).
  { unfold index0. destruct (lxc.ConfigItem c1 "lxc.rootfs.path"); [| apply (keeps_ret untouched)].
    by intros w o w' [= <- <-]. }
  intros rootfs. apply (keeps_bind untouched); [by apply (keeps_effect untouched) |].
  intros _. apply (keeps_ret untouched).
Qed.

(** [doState] is read-only: whatever its outcome, on every world, the file
    system, the records of the engine and the umask are as before. *)
Theorem doState_read_only ctx w : untouched w (snd (doState ctx w)).
Proof.
  destruct (doState ctx w) as [o w'] eqn:Hrun. simpl. by eapply doState_keeps.
Qed.


Lemma doState_absent ctx w :
  let containerID := cli.Args_Get ctx 0 in
  containerID ≠ "" →
  w_fault w (OpContainerExists containerID) = false →
  w_engine w !! containerID = None →
  doState ctx w =
    (Fail (mkError NotFound ("container '" +:+ containerID +:+ "' not found")),
     add_trace (OpContainerExists containerID) w).
Proof.
  intros id Hid Hfault Hrec. unfold doState. fold id.
  destruct (decide (String.length id = 0)) as [Hlen | _].
  { by apply length_zero_empty in Hlen. }
  unfold bind, wrapErr, containerExists, attempt, ret, get, fail. simpl.
  rewrite Hfault, Hrec. done.
Qed.

(** [doState] on an identity that resolves to no record fails with
    [container '<id>' not found]; it has only looked the identity up: no
    handle is loaded, nothing is printed on standard output. *)
Theorem doState_not_found ctx w :
  let containerID := cli.Args_Get ctx 0 in
  containerID ≠ "" →
  w_fault w (OpContainerExists containerID) = false →
  w_engine w !! containerID = None →
  ∃ w', doState ctx w =
          (Fail (mkError NotFound ("container '" +:+ containerID +:+ "' not found")), w')
        ∧ untouched w w' ∧ w_stdout w' = w_stdout w
        ∧ w_trace w' = w_trace w ++ [OpContainerExists containerID].
Proof.
  intros id Hid Hfault Hrec. eexists. split; [by apply doState_absent |]. done.
Qed.

(** [doStart] on a container that is not running and whose sync fifo is not
    there fails with [sync fifo '<path>' not found.]: it has loaded the
    handle, looked for the path and released the handle, and has opened or
    read nothing; disk and engine are as before. *)
Theorem doStart_barrier_missing ctx w :
  let containerID := cli.Args_Get ctx 0 in
  let fifoPath := filepath.Join [LXC_PATH; containerID; "syncfifo"] in
  containerID ≠ "" →
  w_fault w (OpNewContainer containerID LXC_PATH) = false →
  w_fault w (OpStat fifoPath) = false →
  (∀ r, w_engine w !! containerID = Some r → rec_status r ≠ RunningUser) →
  os.lookupNode (w_fs w) fifoPath = None →
  ∃ w', doStart ctx w =
          (Fail (mkError BarrierMissing ("sync fifo '" +:+ fifoPath +:+ "' not found.")), w')
        ∧ w_fs w' = w_fs w ∧ w_engine w' = w_engine w
        ∧ w_trace w' = w_trace w ++
            [OpNewContainer containerID LXC_PATH; OpStat fifoPath; OpRelease containerID].
Proof.
  intros id fifo Hid Hf1 Hf2 Hrun Hnode. unfold doStart. fold id. fold fifo.
  destruct (decide (String.length id = 0)) as [Hlen | _].
  { by apply length_zero_empty in Hlen. }
  unfold bind, wrapErr, defer, lxc.NewContainer, lxc.Running, pathExists,
    attempt, ret, Infof, effect, get, fail. simpl.
  rewrite Hf1. simpl.
  assert (match w_engine w !! id with
          | Some r => bool_decide (rec_status r = RunningUser)
          | None => false
          end = false) as ->.
  { destruct (w_engine w !! id) as [r|] eqn:Hr; [| done].
    apply bool_decide_eq_false. by apply Hrun. }
  simpl. rewrite Hf2. simpl. rewrite Hnode. simpl.
  eexists. split; [reflexivity |]. simpl. rewrite <- !app_assoc. done.
Qed.


(** *** What a start leaves as it is *)



#[local] Instance drained_refl : Reflexive drained.
Proof. by intros w. Qed.

#[local] Instance drained_trans : Transitive drained.
Proof.
  intros a b c (Hf1 & He1 & ? & ?) (Hf2 & He2 & ? & ?).
  split; [intros path; by rewrite Hf2, Hf1 |].
  split; [intros name; by rewrite He2, He1 |].
  split; congruence.
Qed.





(** *** The sync fifo *)

(** [makeSyncFifo] gives the umask back whatever its outcome; when it returns
    the path was free and now names a fifo with the bits 0622 whatever the
    umask of the process, and nothing else on disk has changed; when it does
    not, the disk is as before. *)
Theorem makeSyncFifo_mode_umask dir w :
  let fifoFilename := filepath.Join [dir; "syncfifo"] in
  let w' := snd (makeSyncFifo dir w) in
  w_umask w' = w_umask w ∧ w_engine w' = w_engine w
  ∧ match fst (makeSyncFifo dir w) with
    | Ret _ => os.lookupNode (w_fs w) fifoFilename = None
               ∧ w_fs w' = <[fifoFilename := NFifo 402 []]> (w_fs w)
    | _ => w_fs w' = w_fs w
    end.
Proof.
  intros fifo w'. subst w'. unfold makeSyncFifo. fold fifo.
  unfold bind, defer, wrapErr, unix.Mkfifo, unix.Umask, attempt. simpl.
  destruct (w_fault w (OpMkfifo fifo 402)); simpl; [done |].
  destruct (os.lookupNode (w_fs w) fifo) as [n|]; simpl; [done |].
  destruct (os.isDir (w_fs w) (filepath.Dir fifo)); simpl; done.
Qed.


(** *** Create, when the bundle spec cannot be read *)

(** When the bundle spec cannot be read, [doCreate] fails with [couldn't load
    bundle spec] in front of the reader's error, before it has made the
    directory, the hook or the fifo: disk, engine and umask are as before,
    and the handle it had loaded is released. *)
Theorem doCreate_spec_unreadable ctx w err :
  let containerID := cli.Args_Get ctx 0 in
  containerID ≠ "" →
  w_fault w (OpContainerExists containerID) = false →
  w_fault w (OpNewContainer containerID LXC_PATH) = false →
  w_engine w !! containerID = None →
  readBundleSpec (w_fs w) (filepath.Join [cli.bundle ctx; "config.json"]) = inl err →
  ∃ w', doCreate ctx w = (Fail (errors.Wrap err "couldn't load bundle spec"), w')
        ∧ untouched w w'
        ∧ w_trace w' = w_trace w ++
            [OpContainerExists containerID; OpNewContainer containerID LXC_PATH;
             OpRelease containerID].
Proof.
  intros id Hid Hf1 Hf2 Hrec Hspec. unfold doCreate. fold id.
  destruct (decide (String.length id = 0)) as [Hlen | _].
  { by apply length_zero_empty in Hlen. }
  unfold bind, wrapErr, defer, containerExists, lxc.NewContainer, attempt, ret, Infof,
    effect, get, fail. simpl.
  rewrite Hf1. simpl. rewrite Hrec. simpl. rewrite Hf2. simpl. rewrite Hspec. simpl.
  eexists. split; [reflexivity |]. split; [done |].
  simpl. rewrite <- !app_assoc. done.
Qed.

(** *** What a create leaves as it is *)

Lemma grown_same w w' :
  w_fs w' = w_fs w → w_engine w' = w_engine w → w_umask w' = w_umask w →
  w_stdout w' = w_stdout w → grown w w'.
Proof.
  intros Hfs Heng Hu Hout. repeat split; try done.
  - intros path n Hn. exists n. by rewrite Hfs.
  - intros name. by rewrite Heng.
Qed.


#[local] Instance grown_refl : Reflexive grown.
Proof. intros w. by apply grown_same. Qed.

#[local] Instance grown_trans : Transitive grown.
Proof.
  intros a b c (Hf1 & He1 & Hu1 & Ho1) (Hf2 & He2 & Hu2 & Ho2).
  split; [| split; [| split; congruence]].
  - intros path n Hn. destruct (Hf1 _ _ Hn) as (n1 & Hn1 & Hs1).
    destruct (Hf2 _ _ Hn1) as (n2 & Hn2 & Hs2). exists n2. split; congruence.
  - intros name Hin. by apply He2, He1.
Qed.














(** *** The configurer, step by step *)

Lemma failsafe_bind {A B} (m : M A) (k : A → M B) :
  keeps untouched m → (∀ a, failsafe (k a)) → failsafe (bind m k).
Proof.
  intros Hm Hk w o w'. unfold bind.
  destruct (m w) as [[a|e|c|s|] w1] eqn:Hmw; specialize (Hm _ _ _ Hmw).
  - intros Hka Hno. etransitivity; [exact Hm |]. eapply Hk; eauto.
  - by intros [= <- <-].
  - by intros [= <- <-].
  - by intros [= <- <-].
  - by intros [= <- <-].
Qed.

Lemma SetConfigItem_untouched c key value : keeps untouched (lxc.SetConfigItem c key value).
Proof. apply (keeps_attempt untouched); [done | apply (keeps_ret untouched)]. Qed.

Lemma setEnvironment_untouched env : ∀ c, keeps untouched (setEnvironment c env).
Proof.
  induction env as [|e env IH]; intros c; simpl; [apply (keeps_ret untouched) |].
  apply (keeps_bind untouched); [| intros c1; apply IH].
  intros w o w' Hrun. pose proof (SetConfigItem_untouched c "lxc.environment" e w) as Hk.
  destruct (lxc.SetConfigItem c "lxc.environment" e w) as [[| | | |] w1];
    injection Hrun as <- <-; by eapply Hk.
Qed.

Lemma setMounts_untouched mounts : ∀ c, keeps untouched (setMounts c mounts).
Proof.
  induction mounts as [|ms mounts IH]; intros c; simpl; [apply (keeps_ret untouched) |].
  apply (keeps_bind untouched); [| intros c1; apply IH].
  apply (keeps_wrapErr untouched), SetConfigItem_untouched.
Qed.

Lemma configureContainer_failsafe ctx c spec : failsafe (configureContainer ctx c spec).
Proof.
  unfold configureContainer.
  apply failsafe_bind; [apply (keeps_logging untouched) |].
  intros c1. repeat (apply failsafe_bind;
                     [apply (keeps_wrapErr untouched), SetConfigItem_untouched | intros ?]).
  apply failsafe_bind; [apply setEnvironment_untouched | intros ?].
  apply failsafe_bind; [apply setMounts_untouched | intros ?].
  repeat (apply failsafe_bind;
          [apply (keeps_wrapErr untouched), SetConfigItem_untouched | intros ?]).
  intros w o w'. unfold bind, wrapErr, lxc.SaveConfigFile, attempt, os.writeWhole, ret.
  repeat case_match; simplify_eq; intros [= <- <-] Hno; try done;
    exfalso; by eapply Hno.
Qed.

Lemma configured_name ctx c c1 :
  configureLogging ctx (if cli.debug ctx then lxc.SetVerbosity c lxc.Verbose else c)
    = (None, c1) →
  lxc.Name c1 = lxc.Name c.
Proof.
  intros Hlog.
  pose proof (configureLogging_Name ctx
                (if cli.debug ctx then lxc.SetVerbosity c lxc.Verbose else c)) as HN.
  rewrite Hlog in HN. simpl in HN. rewrite HN. by destruct (cli.debug ctx).
Qed.

(** [configureContainer] writes to disk only as its last step, and only the
    saved configuration file: when it returns, the disk differs from before
    in that file alone, which holds the lines of the handle it returns; when
    it does not return, the disk is as before.  The engine and the umask are
    as before in both cases. *)
Theorem configureContainer_saves_last ctx c spec w :
  let w' := snd (configureContainer ctx c spec w) in
  w_engine w' = w_engine w ∧ w_umask w' = w_umask w
  ∧ match fst (configureContainer ctx c spec w) with
    | Ret c' => ∃ perm, w_fs w' = <[savedConfigFile c :=
                                     NFile perm (lxc.renderConfig (lxc.items c'))]> (w_fs w)
    | _ => w_fs w' = w_fs w
    end.
Proof.
  intros w'. subst w'.
  destruct (configureContainer ctx c spec w) as [o w'] eqn:Hrun. simpl.
  destruct o as [c'|e|code|msg|].
  { apply configureContainer_Ret in Hrun as (c1 & perm & Hlog & -> & -> & _).
    apply configured_name in Hlog. repeat split; try done.
    exists perm. unfold savedConfigFile. simpl. by rewrite Hlog. }
  all: apply configureContainer_failsafe in Hrun as (? & ? & ?); done.
Qed.

(** When [configureContainer] returns, the handle holds the lines it had
    after the logging configuration followed by: the root file system and
    [lxc.rootfs.managed = 0], a line per environment variable, a line per
    mount, the working directory, the host name, the arguments joined by
    spaces and the hook version, in this order.  Each was set in this order,
    the file was saved after the last of them, and the file is the text of
    these lines. *)
Theorem configureContainer_lines ctx c spec w c' w' :
  let c1 := snd (configureLogging ctx
                   (if cli.debug ctx then lxc.SetVerbosity c lxc.Verbose else c)) in
  configureContainer ctx c spec w = (Ret c', w') →
  lxc.items c' = lxc.items c1 ++ configLines spec
  ∧ lxc.Name c' = lxc.Name c
  ∧ w_trace w' = w_trace w ++ setOps (lxc.Name c) (configLines spec)
                   ++ [OpSaveConfigFile (lxc.Name c) (savedConfigFile c)]
  ∧ ∃ perm, w_fs w' !! savedConfigFile c
            = Some (NFile perm (lxc.renderConfig (lxc.items c1 ++ configLines spec))).
Proof.
  intros c1 Hrun.
  apply configureContainer_Ret in Hrun as (c1' & perm & Hlog & -> & -> & _).
  pose proof (configured_name _ _ _ Hlog) as Hname.
  subst c1. rewrite Hlog. simpl. rewrite Hname.
  split; [done |]. split; [done |]. split.
  { unfold savedConfigFile. simpl. by rewrite Hname. }
  exists perm. unfold savedConfigFile. simpl. rewrite Hname. apply lookup_insert_eq.
Qed.

(** The loop over the environment stops at the first variable the engine
    rejects: the variables before it were set, the error names the rejected
    variable in front of the engine's message, and no later variable is
    tried. *)
Theorem setEnvironment_rejected pre : ∀ c e post w,
  (∀ x, x ∈ pre → w_fault w (OpSetConfigItem (lxc.Name c) "lxc.environment" x) = false) →
  w_fault w (OpSetConfigItem (lxc.Name c) "lxc.environment" e) = true →
  ∃ cause,
    setEnvironment c (pre ++ e :: post) w =
      (Fail (mkError EngineFailure
               ("error setting environment variable '" +:+ e +:+ "': " +:+ cause)),
       add_traces (setOps (lxc.Name c) (map (pair "lxc.environment") (pre ++ [e]))) w).
Proof.
  induction pre as [|x pre IH]; intros c e post w Hpre He.
  - simpl. unfold bind, lxc.SetConfigItem, attempt. rewrite He. eexists. reflexivity.
  - assert (w_fault w (OpSetConfigItem (lxc.Name c) "lxc.environment" x) = false) as Hx.
    { apply Hpre. apply elem_of_cons. by left. }
    destruct (IH (withItems c [("lxc.environment", x)]) e post
                (add_traces (setOps (lxc.Name c) [("lxc.environment", x)]) w))
      as (cause & Hrun).
    { intros y Hy. simpl. apply Hpre. apply elem_of_cons. by right. }
    { exact He. }
    exists cause. simpl. unfold bind at 1. unfold lxc.SetConfigItem, attempt at 1.
    rewrite Hx. simpl. unfold withItems in Hrun. simpl in Hrun.
    unfold setOps in Hrun. simpl in Hrun. unfold add_trace. rewrite Hrun.
    by rewrite add_traces_add_traces.
Qed.

(** *** Create, then start *)

Lemma doStart_returns ctx w perm writers :
  let containerID := cli.Args_Get ctx 0 in
  let fifoPath := filepath.Join [LXC_PATH; containerID; "syncfifo"] in
  containerID ≠ "" →
  (∀ o, w_fault w o = false) →
  (∀ r, w_engine w !! containerID = Some r → rec_status r ≠ RunningUser) →
  os.lookupNode (w_fs w) fifoPath = Some (NFifo perm writers) →
  writers ≠ [] →
  ∃ w', doStart ctx w = (Ret tt, w').
Proof.
  intros id fifo Hid Hfault Hrun Hnode Hw. unfold doStart. fold id. fold fifo.
  destruct (decide (String.length id = 0)) as [Hlen | _].
  { by apply length_zero_empty in Hlen. }
  destruct writers as [|wr writers]; [done |].
  unfold bind, wrapErr, defer, lxc.NewContainer, lxc.Running, pathExists, os.OpenFile,
    ioutil.ReadAll, attempt, ret, Infof, effect, get, fail. simpl.
  rewrite !Hfault. simpl.
  assert (match w_engine w !! id with
          | Some r => bool_decide (rec_status r = RunningUser)
          | None => false
          end = false) as ->.
  { destruct (w_engine w !! id) as [r|] eqn:Hr; [| done].
    apply bool_decide_eq_false. by apply Hrun. }
  simpl. rewrite !Hfault. simpl. rewrite Hnode. simpl.
  rewrite !Hfault. simpl. rewrite Hnode. simpl.
  rewrite !Hfault. simpl. rewrite Hnode. simpl. eauto.
Qed.

(** Create and start compose: where the fifo of the hook script is the fifo
    [doStart] opens and no system call fails, a start that follows a create
    that returned does return; afterwards the engine reports the container
    running, and the path still names the fifo. *)
Theorem doCreate_then_doStart ctx w w1 :
  let containerID := cli.Args_Get ctx 0 in
  let fifoPath := filepath.Join [LXC_PATH; containerID; "syncfifo"] in
  (∀ o, w_fault w o = false) →
  hookFifo containerID = fifoPath →
  doCreate ctx w = (Ret tt, w1) →
  ∃ w2 r, doStart ctx w1 = (Ret tt, w2)
          ∧ w_engine w2 !! containerID = Some r ∧ rec_status r = RunningUser
          ∧ isFifo (os.lookupNode (w_fs w2) fifoPath) = true.
Proof.
  intros id fifo Hfault Hpath Hrun.
  destruct (doCreate_Ret ctx w w1 Hrun)
    as (spec & saved & fs2 & text & perm & writers & Hid & _ & _ & _ & _ & Hhook
        & Hfs & Heng & _ & Hf & _).
  fold id in Hid, Hhook, Hfs, Heng. rewrite Hpath in Hhook, Hfs.
  pose proof (lookupNode_fifo _ _ _ _ Hhook) as (_ & Hn1 & Hn2).
  assert (os.lookupNode (w_fs w1) fifo
          = Some (NFifo perm (writers ++ [(id, hookToken)]))) as Hnode.
  { rewrite Hfs. by apply lookupNode_insert. }
  assert (w_engine w1 !! id = Some (mkRecord (lxc.parseConfig text) BlockedAtBarrier))
    as Hrec.
  { rewrite Heng. apply lookup_insert_eq. }
  destruct (doStart_returns ctx w1 perm (writers ++ [(id, hookToken)])) as (w2 & Hstart);
    try done.
  { intros o. by rewrite Hf. }
  { intros r Hr. fold id in Hr. rewrite Hrec in Hr. by injection Hr as <-. }
  { by destruct writers. }
  destruct (doStart_Ret_fifo ctx w1 w2 _ _ Hnode Hstart)
    as (_ & _ & _ & _ & Hfs2 & Heng2 & _).
  assert (id ∈ map fst (writers ++ [(id, hookToken)])) as Hin.
  { rewrite map_app. apply elem_of_app. right. simpl. apply list_elem_of_singleton. done. }
  destruct (release_all_blocked _ _ _ _ Hin Hrec eq_refl) as (r & Hr & Hs).
  exists w2, r. split; [done |]. split; [by rewrite Heng2 |]. split; [done |].
  fold id fifo in Hfs2. rewrite Hfs2. by rewrite lookupNode_insert.
Qed.

(** *** [main] *)

(** [state] on an identity that resolves to no record, as a user sees it:
    the process writes [error: container '<id>' not found] and a newline on
    standard error, nothing on standard output, and exits with status 1. *)
Theorem main_state_not_found detail ctx w :
  let containerID := cli.Args_Get ctx 0 in
  containerID ≠ "" →
  w_fault w (OpContainerExists containerID) = false →
  w_engine w !! containerID = None →
  ∃ w', main detail false doState ctx w = (Exited 1, w')
        ∧ w_stderr w' = w_stderr w +:+ "error: container '" +:+ containerID
                          +:+ "' not found" +:+ nl
        ∧ w_stdout w' = w_stdout w.
Proof.
  intros id Hid Hfault Hrec. unfold main.
  rewrite (doState_absent ctx w Hid Hfault Hrec). simpl.
  eexists. split; [reflexivity |]. split; [| done].
  simpl. by rewrite !sapp_assoc.
Qed.

End CommandFacts.

(** ** Paths *)

Section PathFacts.
Import GoStrings.

Lemma Clean_written path :
  path ≠ "" →
  filepath.Clean path
  = written (rooted path)
      (rev (fold_left (filepath.cleanStep (rooted path)) (Split path slash) [])).
Proof. destruct path; [done |]. reflexivity. Qed.

Lemma Split_nonempty s sep : Split s sep ≠ [].
Proof.
  induction s as [|c s IH]; simpl; [done |].
  destruct (Ascii.eqb c sep); [done |]. by destruct (Split s sep).
Qed.

(** Splitting distributes over a separator between two parts. *)
Lemma Split_sep x y sep :
  Split (x +:+ String sep y) sep = Split x sep ++ Split y sep.
Proof.
  induction x as [|c x IH].
  - rewrite sapp_nil_l. simpl. by rewrite Ascii.eqb_refl.
  - rewrite sapp_cons. simpl. rewrite IH.
    destruct (Ascii.eqb c sep); [done |].
    pose proof (Split_nonempty x sep). by destruct (Split x sep).
Qed.

Lemma Split_elems s sep : Forall (λ e, contains sep e = false) (Split s sep).
Proof.
  induction s as [|c s IH]; simpl; [by repeat constructor |].
  destruct (Ascii.eqb c sep) eqn:Hc; [by constructor |].
  destruct (Split s sep) as [|h t]; [by repeat constructor; simpl; rewrite Hc |].
  inversion IH as [|? ? Hh Ht]; subst. constructor; [| done]. simpl. by rewrite Hc, Hh.
Qed.

Lemma cleanStep_plain r acc e : plain e → filepath.cleanStep r acc e = e :: acc.
Proof.
  intros (H1 & H2 & H3 & _). unfold filepath.cleanStep. by repeat case_decide.
Qed.

Lemma plain_not_dotdot tops n top below :
  Forall plain tops → tops ++ repeat ".." n = top :: below →
  (top = ".." ∧ tops = [] ∧ ∃ m, n = S m ∧ below = repeat ".." m)
  ∨ (top ≠ ".." ∧ ∃ tops', tops = top :: tops' ∧ below = tops' ++ repeat ".." n).
Proof.
  intros Hplain Heq. destruct tops as [|t tops]; simpl in Heq.
  - left. destruct n as [|m]; simpl in Heq; [done |]. injection Heq as <- <-. eauto.
  - right. injection Heq as -> <-. inversion Hplain as [|? ? (_ & _ & Hdd & _) ?]; subst.
    eauto.
Qed.

Lemma cleanStep_stacked r acc e :
  contains slash e = false → stacked r acc → stacked r (filepath.cleanStep r acc e).
Proof.
  intros He (tops & n & -> & Hplain & Hr). unfold filepath.cleanStep.
  case_decide as H1; [by exists tops, n |].
  case_decide as H2; [by exists tops, n |].
  case_decide as H3.
  - destruct (tops ++ repeat ".." n) as [|top below] eqn:Hacc.
    + destruct r; [by exists [], 0 | by exists [], 1].
    + destruct (plain_not_dotdot _ _ _ _ Hplain Hacc)
        as [(-> & -> & m & -> & ->) | (Hne & tops' & -> & ->)].
      * rewrite decide_True by done. exists [], (S (S m)). split; [done |].
        split; [done |]. intros Htrue. by specialize (Hr Htrue).
      * rewrite decide_False by done. exists tops', n. split; [done |].
        split; [by inversion Hplain | done].
  - exists (e :: tops), n. split; [done |]. split; [| done].
    constructor; [done | done].
Qed.

Lemma fold_stacked r l : ∀ acc,
  Forall (λ e, contains slash e = false) l → stacked r acc →
  stacked r (fold_left (filepath.cleanStep r) l acc).
Proof.
  induction l as [|e l IH]; intros acc Hl Hacc; simpl; [done |].
  inversion Hl; subst. apply IH; [done |]. by apply cleanStep_stacked.
Qed.

Lemma fold_dotdots n : ∀ m,
  fold_left (filepath.cleanStep false) (repeat ".." n) (repeat ".." m)
  = repeat ".." (n + m).
Proof.
  induction n as [|n IH]; intros m; simpl; [done |].
  replace (filepath.cleanStep false (repeat ".." m) "..") with (repeat ".." (S m)).
  - by rewrite IH, Nat.add_succ_r.
  - by destruct m.
Qed.

Lemma fold_plain r tops : ∀ base,
  Forall plain tops →
  fold_left (filepath.cleanStep r) (rev tops) base = tops ++ base.
Proof.
  induction tops as [|t tops IH]; intros base Hplain; simpl; [done |].
  inversion Hplain; subst.
  rewrite fold_left_app. simpl. rewrite IH by done. by apply cleanStep_plain.
Qed.

Lemma rev_dotdots n : rev (repeat ".." n) = repeat ".." n.
Proof.
  induction n as [|n IH]; simpl; [done |]. rewrite IH.
  symmetry. apply (repeat_cons n "..").
Qed.

(** Cleaning the elements of a stack again gives the stack. *)
Lemma fold_again r acc :
  stacked r acc → fold_left (filepath.cleanStep r) (rev acc) [] = acc.
Proof.
  intros (tops & n & -> & Hplain & Hr).
  rewrite rev_app_distr, fold_left_app, rev_dotdots.
  destruct r.
  - rewrite (Hr eq_refl). simpl. rewrite fold_plain by done. done.
  - change (@nil string) with (repeat ".." 0) at 1. rewrite fold_dotdots.
    rewrite fold_plain by done. by rewrite Nat.add_0_r.
Qed.

Lemma stacked_elems r acc :
  stacked r acc → forallb (Recover.free slash) acc = true.
Proof.
  intros (tops & n & -> & Hplain & _). rewrite forallb_app.
  apply andb_true_iff. split.
  - apply forallb_forall. intros e Hin. rewrite Forall_forall in Hplain.
    apply list_elem_of_In, Hplain in Hin as (_ & _ & _ & He).
    unfold Recover.free. by rewrite He.
  - apply forallb_forall. intros e Hin. by apply repeat_spec in Hin as ->.
Qed.

Lemma stacked_nonempty r acc e : stacked r acc → e ∈ acc → e ≠ "".
Proof.
  intros (tops & n & -> & Hplain & _) [Hin | Hin]%elem_of_app.
  - rewrite Forall_forall in Hplain. by destruct (Hplain _ Hin).
  - apply list_elem_of_In, repeat_spec in Hin as ->. done.
Qed.

Lemma rooted_app x y : x ≠ "" → rooted (x +:+ y) = rooted x.
Proof. by destruct x. Qed.

Lemma rooted_free e : e ≠ "" → contains slash e = false → rooted e = false.
Proof.
  destruct e as [|c e]; [done |]. simpl. intros _ H. by apply orb_false_iff in H as (-> & _).
Qed.

Lemma Join_first e rest sep : e ≠ "" → rooted (Join (e :: rest) sep) = rooted e.
Proof.
  intros He. destruct rest as [|e' rest]; [done |]. rewrite Join_cons. by apply rooted_app.
Qed.

Lemma rev_free acc :
  forallb (Recover.free slash) acc = true → forallb (Recover.free slash) (rev acc) = true.
Proof.
  rewrite !forallb_forall. intros Hacc e Hin. apply Hacc. by apply in_rev.
Qed.

(** A cleaned path is not empty and is rooted when the path was. *)
Lemma written_rooted r acc :
  stacked r acc →
  written r (rev acc) ≠ "" ∧ rooted (written r (rev acc)) = r.
Proof.
  intros Hacc. unfold written.
  destruct (rev acc) as [|e rest] eqn:Hrev; [by destruct r |].
  assert (e ∈ acc) as Hin.
  { apply list_elem_of_In, in_rev. rewrite Hrev. by left. }
  pose proof (stacked_nonempty _ _ _ Hacc Hin) as He.
  assert (contains slash e = false) as Hfree.
  { pose proof (stacked_elems _ _ Hacc) as Hall. rewrite forallb_forall in Hall.
    apply list_elem_of_In, Hall in Hin. by apply negb_true_iff in Hin. }
  destruct r.
  - by rewrite sapp_cons, sapp_nil_l.
  - split.
    + destruct rest; [done |]. rewrite Join_cons. by destruct e.
    + rewrite Join_first by done. by apply rooted_free.
Qed.

(** The elements of a cleaned path, cleaned again, are its stack. *)
Lemma Split_written r acc :
  stacked r acc →
  fold_left (filepath.cleanStep r) (Split (written r (rev acc)) slash) [] = acc.
Proof.
  intros Hacc. pose proof (fold_again _ _ Hacc) as Hfold.
  pose proof (rev_free _ (stacked_elems _ _ Hacc)) as Hfree.
  unfold written. destruct (rev acc) as [|e rest] eqn:Hrev.
  - simpl in Hfold. subst acc. by destruct r.
  - destruct r.
    + rewrite sapp_cons, sapp_nil_l.
      change (String "/" (Join (e :: rest) "/"))
        with ("" +:+ String slash (Join (e :: rest) (String slash ""))).
      rewrite Split_sep, Split_Join by done. simpl. exact Hfold.
    + change "/" with (String slash ""). rewrite Split_Join by done. exact Hfold.
Qed.

(** Cleaning a path, then joining an element and cleaning, is joining the
    element and cleaning. *)
Lemma Clean_Clean_sep x c :
  x ≠ "" →
  filepath.Clean (filepath.Clean x +:+ String slash c)
  = filepath.Clean (x +:+ String slash c).
Proof.
  intros Hx.
  set (r := rooted x).
  set (acc := fold_left (filepath.cleanStep r) (Split x slash) []).
  assert (stacked r acc) as Hacc.
  { apply fold_stacked; [apply Split_elems |]. by exists [], 0. }
  destruct (written_rooted _ _ Hacc) as (Hne & Hroot).
  rewrite (Clean_written x) by done. fold r. fold acc.
  rewrite (Clean_written (written r (rev acc) +:+ String slash c)).
  2: { by destruct (written r (rev acc)). }
  rewrite (Clean_written (x +:+ String slash c)).
  2: { by destruct x. }
  rewrite !rooted_app, Hroot by done. fold r.
  rewrite !Split_sep, !fold_left_app. fold acc.
  by rewrite Split_written.
Qed.

Lemma filepath_Join_one x : x ≠ "" → filepath.Join [x] = filepath.Clean x.
Proof. intros Hx. unfold filepath.Join. by rewrite decide_False. Qed.

Lemma filepath_Join_two x c :
  x ≠ "" → filepath.Join [x; c] = filepath.Clean (x +:+ String slash c).
Proof. intros Hx. unfold filepath.Join. by rewrite decide_False. Qed.

Lemma filepath_Join_skip rest : filepath.Join ("" :: rest) = filepath.Join rest.
Proof. reflexivity. Qed.

Lemma Clean_nonempty x : filepath.Clean x ≠ "".
Proof.
  destruct (decide (x = "")) as [-> | Hx]; [done |].
  rewrite Clean_written by done.
  eapply written_rooted, fold_stacked; [apply Split_elems |]. by exists [], 0.
Qed.

(** Joining in two steps is joining in one. *)
Lemma filepath_Join_Join a b c :
  filepath.Join [filepath.Join [a; b]; c] = filepath.Join [a; b; c].
Proof.
  destruct (decide (a = "")) as [-> | Ha].
  - rewrite !filepath_Join_skip.
    destruct (decide (b = "")) as [-> | Hb]; [done |].
    rewrite filepath_Join_one, !filepath_Join_two by (done || apply Clean_nonempty).
    by apply Clean_Clean_sep.
  - rewrite (filepath_Join_two a b) by done.
    rewrite filepath_Join_two by apply Clean_nonempty.
    rewrite Clean_Clean_sep by (by destruct a).
    unfold filepath.Join. rewrite decide_False by done.
    f_equal. simpl. by rewrite sapp_assoc.
Qed.

End PathFacts.

Section PathsOfTheCommands.
Context `{Externals}.
Import GoStrings.

(** The fifo [doCreate] makes is the fifo [doStart] opens: joining the
    directory of the container with [syncfifo], as [makeSyncFifo] does, gives
    the path [doStart] joins in one step, for every path of the library and
    every container ID. *)
Theorem fifo_paths_agree containerID :
  filepath.Join [filepath.Join [LXC_PATH; containerID]; "syncfifo"]
  = filepath.Join [LXC_PATH; containerID; "syncfifo"].
Proof. apply filepath_Join_Join. Qed.


End PathsOfTheCommands.

(** ** The further properties on the example deployment *)


Lemma doState_not_found_witness :
  ∃ w', @doState Example.deployment (Example.ctx "ghost") Example.empty =
          (Fail (mkError NotFound ("container '" +:+ "ghost" +:+ "' not found")), w')
        ∧ untouched Example.empty w' ∧ w_stdout w' = w_stdout Example.empty
        ∧ w_trace w' = w_trace Example.empty ++ [OpContainerExists "ghost"].
Proof.
  apply (@doState_not_found Example.deployment (Example.ctx "ghost") Example.empty).
  - discriminate.
  - reflexivity.
  - reflexivity.
Defined.

Lemma doStart_barrier_missing_witness :
  ∃ w', @doStart Example.deployment (Example.ctx "ghost") Example.empty =
          (Fail (mkError BarrierMissing
                   ("sync fifo '" +:+ "/var/lib/lxc/ghost/syncfifo" +:+ "' not found.")), w')
        ∧ w_fs w' = w_fs Example.empty ∧ w_engine w' = w_engine Example.empty
        ∧ w_trace w' = w_trace Example.empty ++
            [OpNewContainer "ghost" "/var/lib/lxc"; OpStat "/var/lib/lxc/ghost/syncfifo";
             OpRelease "ghost"].
Proof.
  apply (@doStart_barrier_missing Example.deployment (Example.ctx "ghost") Example.empty).
  - discriminate.
  - reflexivity.
  - reflexivity.
  - intros r Hr. vm_compute in Hr. discriminate Hr.
  - vm_compute. reflexivity.
Defined.


Lemma doStart_blocks_without_writer_witness :
  fst (@doStart Example.deployment (Example.ctx "c1") Example.provisioned) = Blocked.
Proof.
  apply (@doStart_blocks_without_writer Example.deployment (Example.ctx "c1")
           Example.provisioned 402).
  - discriminate.
  - reflexivity.
  - intros r Hr. vm_compute in Hr. discriminate Hr.
  - vm_compute. reflexivity.
Defined.


Lemma doCreate_spec_unreadable_witness :
  ∃ w', @doCreate Example.unreadable (Example.ctx "c1") Example.empty =
          (Fail (errors.Wrap
                   (mkError IOFailure "open config.json: no such file or directory")
                   "couldn't load bundle spec"), w')
        ∧ untouched Example.empty w'
        ∧ w_trace w' = w_trace Example.empty ++
            [OpContainerExists "c1"; OpNewContainer "c1" "/var/lib/lxc"; OpRelease "c1"].
Proof.
  apply (@doCreate_spec_unreadable Example.unreadable (Example.ctx "c1") Example.empty).
  - discriminate.
  - reflexivity.
  - reflexivity.
  - reflexivity.
  - reflexivity.
Defined.

Lemma configureContainer_lines_witness :
  lxc.items (fst Example.configured)
  = lxc.items Example.handle ++ configLines Example.spec
  ∧ lxc.Name (fst Example.configured) = "c1"
  ∧ w_trace (snd Example.configured)
    = w_trace Example.prepared ++ setOps "c1" (configLines Example.spec)
        ++ [OpSaveConfigFile "c1" "/var/lib/lxc/c1/config"]
  ∧ ∃ perm, w_fs (snd Example.configured) !! "/var/lib/lxc/c1/config"
            = Some (NFile perm (lxc.renderConfig
                                  (lxc.items Example.handle ++ configLines Example.spec))).
Proof.
  apply (@configureContainer_lines Example.deployment (Example.ctx "c1") Example.handle
           Example.spec Example.prepared (fst Example.configured) (snd Example.configured)).
  vm_compute. reflexivity.
Defined.

Lemma setEnvironment_rejected_witness :
  ∃ cause,
    setEnvironment Example.handle (["PATH=/bin"] ++ "TERM=xterm" :: []) Example.rejecting =
      (Fail (mkError EngineFailure
               ("error setting environment variable '" +:+ "TERM=xterm" +:+ "': " +:+ cause)),
       add_traces (setOps "c1" (map (pair "lxc.environment") (["PATH=/bin"] ++ ["TERM=xterm"])))
         Example.rejecting).
Proof.
  apply (setEnvironment_rejected ["PATH=/bin"] Example.handle "TERM=xterm" []
           Example.rejecting).
  - intros x Hx. apply list_elem_of_singleton in Hx as ->. reflexivity.
  - reflexivity.
Defined.

Lemma doCreate_then_doStart_witness :
  ∃ w2 r, @doStart Example.deployment (Example.ctx "c1") Example.created = (Ret tt, w2)
          ∧ w_engine w2 !! "c1" = Some r ∧ rec_status r = RunningUser
          ∧ isFifo (os.lookupNode (w_fs w2) "/var/lib/lxc/c1/syncfifo") = true.
Proof.
  apply (@doCreate_then_doStart Example.deployment (Example.ctx "c1")
           Example.empty Example.created).
  - reflexivity.
  - vm_compute. reflexivity.
  - vm_compute. reflexivity.
Defined.

Lemma main_state_not_found_witness :
  ∃ w', main err_msg false (@doState Example.deployment) (Example.ctx "ghost")
          Example.empty = (Exited 1, w')
        ∧ w_stderr w' = w_stderr Example.empty +:+ "error: container '" +:+ "ghost"
                          +:+ "' not found" +:+ GoStrings.nl
        ∧ w_stdout w' = w_stdout Example.empty.
Proof.
  apply (@main_state_not_found Example.deployment err_msg (Example.ctx "ghost")
           Example.empty).
  - discriminate.
  - reflexivity.
  - reflexivity.
Defined.


